(** * Jira2.0: the release-table server and the spreadsheet sync job

  A shallow embedding of [api_server.py] (the in-memory row store, the
  identifier resolver and the ingest / patch / rebuild endpoints) and of
  the table-preparation part of [sync_excel_jira.py] (column
  reconciliation, identifier assignment, de-duplication), followed by the
  properties of the specification checked against them.

  Conventions.  A Python [str] is a [string] whose characters are read as
  the code points U+0000..U+00FF.  A [dict] is an association list in
  insertion order, read and written at the first entry of a key.  The
  module-level list [DATA_STORAGE] is threaded explicitly as the state of
  a small state-and-exception monad. *)

From Stdlib Require Import ZArith NArith Ascii String DecimalString Lia.
From Stdlib Require DecimalNat DecimalFacts.
From stdpp Require Import base list strings.

Local Open Scope string_scope.

(** ** Python string primitives *)

Module PyStr.

Definition code (c : ascii) : N := N_of_ascii c.

(** [str.isspace] on one character, for the code points below 256. *)
Definition isspace (c : ascii) : bool :=
  let n := code c in
  ((9 <=? n) && (n <=? 13) || (28 <=? n) && (n <=? 32)
   || (n =? 133) || (n =? 160))%N.

(** A decimal digit, as [\d] sees it below code point 256. *)
Definition isdigit (c : ascii) : bool :=
  let n := code c in ((48 <=? n) && (n <=? 57))%N.

Definition is_empty (s : string) : bool :=
  match s with EmptyString => true | String _ _ => false end.

Fixpoint lstrip (s : string) : string :=
  match s with
  | EmptyString => EmptyString
  | String c r => if isspace c then lstrip r else s
  end.

Fixpoint rstrip (s : string) : string :=
  match s with
  | EmptyString => EmptyString
  | String c r =>
      let r' := rstrip r in
      if isspace c && is_empty r' then EmptyString else String c r'
  end.

(** [s.strip()] *)
Definition strip (s : string) : string := rstrip (lstrip s).

(** [str.lower] on one character, for the code points below 256. *)
Definition lower_char (c : ascii) : ascii :=
  let n := code c in
  if ((65 <=? n) && (n <=? 90)
      || (192 <=? n) && (n <=? 222) && negb (n =? 215))%N
  then ascii_of_N (n + 32) else c.

Fixpoint lower (s : string) : string :=
  match s with
  | EmptyString => EmptyString
  | String c r => String (lower_char c) (lower r)
  end.

(** [str(n)] for a non-negative and for an arbitrary integer. *)
Definition of_nat (n : nat) : string :=
  NilEmpty.string_of_uint (Nat.to_uint n).

Definition of_Z (z : Z) : string :=
  NilEmpty.string_of_int (Z.to_int z).

Fixpoint all_chars (p : ascii -> bool) (s : string) : bool :=
  match s with
  | EmptyString => true
  | String c r => p c && all_chars p r
  end.

(** The string ends in a whitespace character. *)
Fixpoint last_is_space (s : string) : bool :=
  match s with
  | EmptyString => false
  | String c EmptyString => isspace c
  | String _ r => last_is_space r
  end.

(** [sep.join(parts)] *)
Fixpoint join (sep : string) (parts : list string) : string :=
  match parts with
  | [] => EmptyString
  | [p] => p
  | p :: ps => p +:+ sep +:+ join sep ps
  end.

(** [s[:n]] *)
Fixpoint take (n : nat) (s : string) : string :=
  match n, s with
  | S n', String c r => String c (take n' r)
  | _, _ => EmptyString
  end.

End PyStr.

(** ** The serving process ([api_server.py]) *)

Module Server.

(** A JSON value held in a row.  The program looks at a value only
    through its truth value ([or]) and its [str()]; [VOther] stands for
    a value of any remaining JSON type (a float, an array, an object)
    and records those two observations. *)
Inductive value : Type :=
| VNone
| VBool (b : bool)
| VInt (z : Z)
| VStr (s : string)
| VOther (truth : bool) (repr : string).

Global Instance value_eq_dec : EqDecision value.
Proof. solve_decision. Defined.

Abbreviation row := (list (string * value)).

(** One element of a posted array: a JSON object or anything else. *)
Inductive item : Type :=
| Obj (r : row)
| NotObj.

(** A parsed request body. *)
Inductive body : Type :=
| BArray (items : list item)
| BObject (r : row)
| BOther.

Abbreviation store := (list row).

Definition truthy (v : value) : bool :=
  match v with
  | VNone => false
  | VBool b => b
  | VInt z => negb (z =? 0)%Z
  | VStr s => negb (PyStr.is_empty s)
  | VOther t _ => t
  end.

Definition py_str (v : value) : string :=
  match v with
  | VNone => "None"
  | VBool true => "True"
  | VBool false => "False"
  | VInt z => PyStr.of_Z z
  | VStr s => s
  | VOther _ r => r
  end.

(** [a or b] *)
Definition py_or (a b : value) : value := if truthy a then a else b.

Fixpoint lookup_key (k : string) (r : row) : option value :=
  match r with
  | [] => None
  | (k', v) :: r' => if decide (k' = k) then Some v else lookup_key k r'
  end.

(** [row.get(k)] *)
Definition dict_get (r : row) (k : string) : value :=
  default VNone (lookup_key k r).

(** [row[k] = v] *)
Fixpoint dict_set (k : string) (v : value) (r : row) : row :=
  match r with
  | [] => [(k, v)]
  | (k', v') :: r' =>
      if decide (k' = k) then (k, v) :: r' else (k', v') :: dict_set k v r'
  end.

Definition API_KEY : string := "my_secret_key".

Inductive http_error : Type :=
| Unauthorized
| BadRequest (detail : string)
| Forbidden (field : string)
| NotFound (rid : string) (known : list string)
| ServerError.

Definition status_code (e : http_error) : Z :=
  match e with
  | Unauthorized => 401
  | BadRequest _ => 400
  | Forbidden _ => 403
  | NotFound _ _ => 404
  | ServerError => 500
  end.

Inductive result (A : Type) : Type :=
| Ok (a : A)
| Raise (e : http_error).
Arguments Ok {A} a.
Arguments Raise {A} e.

(** A handler: runs on the store, leaves a store and returns or raises.
    A raise keeps the mutations made before it. *)
Definition handler (A : Type) : Type := store -> store * result A.

Definition ret {A} (a : A) : handler A := fun st => (st, Ok a).
Definition raise {A} (e : http_error) : handler A := fun st => (st, Raise e).
Definition bind {A B} (m : handler A) (k : A -> handler B) : handler B :=
  fun st =>
    match m st with
    | (st', Ok a) => k a st'
    | (st', Raise e) => (st', Raise e)
    end.
Definition lift {A} (r : result A) : handler A := fun st => (st, r).
Definition read : handler store := fun st => (st, Ok st).
Definition write (st' : store) : handler unit := fun _ => (st', Ok tt).

Notation "x <- m ;; k" := (bind m (fun x => k))
  (at level 100, m at next level, right associativity).
Notation "m ;;; k" := (bind m (fun _ => k))
  (at level 100, right associativity).

Definition _auth_or_401 (authorization : option string) : handler unit :=
  if decide (authorization = Some ("Bearer " +:+ API_KEY))
  then ret tt else raise Unauthorized.

Definition _row_id (r : row) : string :=
  let rid :=
    py_or (dict_get r "__id")
      (py_or (dict_get r "ExternalID")
         (py_or (dict_get r "ID")
            (py_or (dict_get r "id") (VStr EmptyString)))) in
  PyStr.strip (py_str rid).

Definition normalize_id (rid : string) : string := PyStr.strip rid.

(** The digits after the last hyphen, for [-(\d+)$]: one or more
    digits, then the end of the string or one final line feed. *)
Fixpoint digits_to_end (s : string) : bool :=
  match s with
  | EmptyString => false
  | String c r =>
      PyStr.isdigit c
      && (PyStr.is_empty r || bool_decide (r = String "010" EmptyString)
          || digits_to_end r)
  end.

(** The text before the hyphen at which [-(\d+)$] matches, if any. *)
Fixpoint before_suffix (s : string) : option string :=
  match s with
  | EmptyString => None
  | String c r =>
      match before_suffix r with
      | Some b => Some (String c b)
      | None =>
          if bool_decide (c = "-"%char) && digits_to_end r
          then Some EmptyString else None
      end
  end.

Definition no_line_feed (s : string) : bool :=
  PyStr.all_chars (fun c => negb (bool_decide (c = "010"%char))) s.

(** [re.match] of the pattern of [strip_suffix_num] (any characters as
    group 1, a hyphen, one or more digits, the end), reduced to its first
    group: [.] matches every character but the line feed. *)
Definition re_match_group1 (s : string) : option string :=
  match before_suffix s with
  | Some b => if no_line_feed b then Some b else None
  | None => None
  end.

Definition strip_suffix_num (rid : string) : option string :=
  PyStr.strip <$> re_match_group1 (PyStr.strip rid).

(** [_row_id(r) or f"row-{i}"] *)
Definition id_or_fallback (i : nat) (r : row) : string :=
  let rid := _row_id r in
  if PyStr.is_empty rid then "row-" +:+ PyStr.of_nat i else rid.

Fixpoint attach_from (i : nat) (rows : list item) : result (list row) :=
  match rows with
  | [] => Ok []
  | NotObj :: _ => Raise (BadRequest "Each item must be an object")
  | Obj r :: rest =>
      let r2 := dict_set "__id" (VStr (id_or_fallback i r)) r in
      match attach_from (S i) rest with
      | Ok out => Ok (r2 :: out)
      | Raise e => Raise e
      end
  end.

Definition _attach_ids (rows : list item) : result (list row) :=
  attach_from 0 rows.

(** The first row, with its position, whose probed identifier is [rid]. *)
Definition first_with_id (st : store) (rid : string) : option (nat * row) :=
  list_find (fun r => _row_id r = rid) st.

Definition find_row_by_id (st : store) (rid : string) : option (nat * row) :=
  let rid := normalize_id rid in
  match first_with_id st rid with
  | Some hit => Some hit
  | None =>
      match strip_suffix_num rid with
      | Some base =>
          if PyStr.is_empty base then None else first_with_id st base
      | None => None
      end
  end.

Definition list_ids (st : store) : list string := _row_id <$> st.

(** [POST /releases] *)
Definition receive_releases (authorization : option string) (payload : body)
  : handler nat :=
  _auth_or_401 authorization ;;;
  items <- match payload with
           | BArray items => ret items
           | _ => raise (BadRequest "Expected a list of releases")
           end ;;
  write [] ;;;
  rows <- lift (_attach_ids items) ;;
  st <- read ;;
  write (st ++ rows)%list ;;;
  st <- read ;;
  ret (length st).

(** [GET /releases/{rid}] *)
Definition get_row (rid : string) : handler row :=
  st <- read ;;
  match find_row_by_id st rid with
  | Some (_, r) => ret r
  | None => raise (NotFound rid (firstn 5 (list_ids st)))
  end.

(** What a successful patch reports back. *)
Record patched : Type := Patched {
  patched_id : string;
  patched_field : string;
  patched_value : value
}.

(** The trimmed [field] entry of the body, the empty string when the
    entry is absent or falsy; a truthy value that is not a string has no
    [strip], and a body that is not an object no [get]. *)
Definition body_field (b : body) : result string :=
  match b with
  | BObject r =>
      match py_or (dict_get r "field") (VStr EmptyString) with
      | VStr s => Ok (PyStr.strip s)
      | _ => Raise ServerError
      end
  | _ => Raise ServerError
  end.

Definition body_value (b : body) : value :=
  match b with
  | BObject r => dict_get r "value"
  | _ => VNone
  end.

(** [EDITABLE_COLUMNS and field not in EDITABLE_COLUMNS] *)
Definition not_editable (editable : option (list string)) (field : string)
  : bool :=
  match editable with
  | None | Some [] => false
  | Some cols => negb (bool_decide (field ∈ cols))
  end.

(** [PATCH /releases/{rid}], for a setting of [EDITABLE_COLUMNS]. *)
Definition patch_cell (editable : option (list string))
    (rid : string) (authorization : option string) (b : body)
  : handler patched :=
  _auth_or_401 authorization ;;;
  field <- lift (body_field b) ;;
  let value := body_value b in
  (if PyStr.is_empty field then raise (BadRequest "Missing 'field'")
   else ret tt) ;;;
  (if not_editable editable field then raise (Forbidden field)
   else ret tt) ;;;
  st <- read ;;
  match find_row_by_id st rid with
  | None => raise (NotFound rid (firstn 5 (list_ids st)))
  | Some (i, r) =>
      let r' := dict_set field value r in
      write (<[i := r']> st) ;;;
      ret (Patched (_row_id r') field value)
  end.

(** The value the source gives [EDITABLE_COLUMNS]. *)
Definition EDITABLE_COLUMNS : option (list string) := None.

(** [POST /releases/rebuild-ids] *)
Definition rebuild_ids (authorization : option string) : handler nat :=
  _auth_or_401 authorization ;;;
  st <- read ;;
  write (imap (fun i r => dict_set "__id" (VStr (id_or_fallback i r)) r) st) ;;;
  st <- read ;;
  ret (length st).

(** The mutating requests of the serving process. *)
Inductive request : Type :=
| Ingest (authorization : option string) (payload : body)
| Patch (rid : string) (authorization : option string) (b : body)
| Rebuild (authorization : option string).

Definition serve (st : store) (q : request) : store :=
  match q with
  | Ingest a p => fst (receive_releases a p st)
  | Patch rid a b => fst (patch_cell EDITABLE_COLUMNS rid a b st)
  | Rebuild a => fst (rebuild_ids a st)
  end.

(** The store after a sequence of requests, from the empty store. *)
Definition run (qs : list request) : store := foldl serve [] qs.

(** *** Vocabulary of the statements *)

(** The header value that [_auth_or_401] lets through. *)
Definition bearer : option string := Some ("Bearer " +:+ API_KEY).

Definition is_object (x : item) : Prop :=
  match x with Obj _ => True | NotObj => False end.

(** The [__id] entry of a row, if it has one. *)
Definition id_field (r : row) : option value := lookup_key "__id" r.

(** The row carries a non-empty string under [__id]. *)
Definition has_id (r : row) : Prop :=
  exists s, id_field r = Some (VStr s) /\ s <> EmptyString.

(** An [__id] entry that is a non-empty, trimmed string. *)
Definition good_id (o : option value) : Prop :=
  exists s, o = Some (VStr s) /\ s <> EmptyString /\ PyStr.strip s = s.

(** The string [q] is [base], a hyphen and one or more digits. *)
Definition numeric_suffix (q base : string) : Prop :=
  exists ds, q = base +:+ "-" +:+ ds /\ ds <> EmptyString /\
             PyStr.all_chars PyStr.isdigit ds = true.

(** The identifiers an array of objects is stored under. *)
Fixpoint effective_ids (i : nat) (rows : list item) : list string :=
  match rows with
  | [] => []
  | Obj r :: rest => id_or_fallback i r :: effective_ids (S i) rest
  | NotObj :: rest => effective_ids (S i) rest
  end.

(** A patch request that names the field [__id]. *)
Definition patches_id (q : request) : Prop :=
  match q with
  | Patch _ _ b => body_field b = Ok "__id"
  | _ => False
  end.

(** The authorization header a request came with. *)
Definition header (q : request) : option string :=
  match q with
  | Ingest a _ | Patch _ a _ | Rebuild a => a
  end.

(** An ingest request whose rows come with pairwise distinct identifiers. *)
Definition distinct_ingest (q : request) : Prop :=
  match q with
  | Ingest _ (BArray items) => NoDup (effective_ids 0 items)
  | _ => True
  end.

End Server.

(** ** SHA-1, as [hashlib.sha1(...).hexdigest()] computes it *)

Module Sha1.

Local Open Scope Z_scope.

Definition mask32 (x : Z) : Z := Z.land x 4294967295.
Definition add32 (x y : Z) : Z := mask32 (x + y).
Definition rotl (n x : Z) : Z :=
  mask32 (Z.lor (Z.shiftl x n) (Z.shiftr x (32 - n))).
Definition not32 (x : Z) : Z := Z.lxor x 4294967295.

(** [s.encode("utf-8")] for code points below 256: one byte below 128,
    two bytes from 128 on. *)
Definition utf8_char (c : ascii) : list Z :=
  let n := Z.of_N (N_of_ascii c) in
  if n <? 128 then [n]
  else [Z.lor 192 (Z.shiftr n 6); Z.lor 128 (Z.land n 63)].

Fixpoint encode_utf8 (s : string) : list Z :=
  match s with
  | EmptyString => []
  | String c r => (utf8_char c ++ encode_utf8 r)%list
  end.

Definition be64 (n : Z) : list Z :=
  (fun sh => Z.land (Z.shiftr n sh) 255) <$> [56; 48; 40; 32; 24; 16; 8; 0].

(** The message, one 1 bit, zero bits up to 56 bytes modulo 64, and the
    bit length on 8 bytes. *)
Definition pad (msg : list Z) : list Z :=
  let len := Z.of_nat (length msg) in
  (msg ++ [128] ++ replicate (Z.to_nat ((55 - len) mod 64)) 0
       ++ be64 (8 * len))%list.

Fixpoint words (bs : list Z) : list Z :=
  match bs with
  | a :: b :: c :: d :: r =>
      Z.lor (Z.shiftl a 24) (Z.lor (Z.shiftl b 16) (Z.lor (Z.shiftl c 8) d))
      :: words r
  | _ => []
  end.

Fixpoint blocks (fuel : nat) (ws : list Z) : list (list Z) :=
  match fuel, ws with
  | S f, _ :: _ => firstn 16 ws :: blocks f (skipn 16 ws)
  | _, _ => []
  end.

(** The message schedule, most recent word first. *)
Fixpoint schedule (n : nat) (rw : list Z) : list Z :=
  match n with
  | O => rw
  | S n' =>
      let w := rotl 1 (Z.lxor (nth 2 rw 0)
                 (Z.lxor (nth 7 rw 0) (Z.lxor (nth 13 rw 0) (nth 15 rw 0)))) in
      schedule n' (w :: rw)
  end.

Definition state : Type := Z * Z * Z * Z * Z.

Definition round (t : nat) (s : state) (w : Z) : state :=
  let '(a, b, c, d, e) := s in
  let '(f, k) :=
    if (t <? 20)%nat
    then (Z.lor (Z.land b c) (Z.land (not32 b) d), 1518500249)
    else if (t <? 40)%nat
    then (Z.lxor b (Z.lxor c d), 1859775393)
    else if (t <? 60)%nat
    then (Z.lor (Z.land b c) (Z.lor (Z.land b d) (Z.land c d)), 2400959708)
    else (Z.lxor b (Z.lxor c d), 3395469782) in
  let temp := add32 (add32 (add32 (add32 (rotl 5 a) f) e) k) w in
  (temp, a, rotl 30 b, c, d).

Fixpoint rounds (t : nat) (s : state) (ws : list Z) : state :=
  match ws with
  | [] => s
  | w :: ws' => rounds (S t) (round t s w) ws'
  end.

Definition compress (h : state) (block : list Z) : state :=
  let '(h0, h1, h2, h3, h4) := h in
  let '(a, b, c, d, e) := rounds 0 h (rev (schedule 64 (rev block))) in
  (add32 h0 a, add32 h1 b, add32 h2 c, add32 h3 d, add32 h4 e).

Definition init : state :=
  (1732584193, 4023233417, 2562383102, 271733878, 3285377520).

Definition digest (msg : list Z) : state :=
  let ws := words (pad msg) in
  foldl compress init (blocks (length ws) ws).

Definition hex_digit (n : Z) : ascii :=
  nth (Z.to_nat n)
    ["0"; "1"; "2"; "3"; "4"; "5"; "6"; "7";
     "8"; "9"; "a"; "b"; "c"; "d"; "e"; "f"]%char "0"%char.

Definition hex32 (w : Z) (rest : string) : string :=
  let d sh := hex_digit (Z.land (Z.shiftr w sh) 15) in
  String (d 28) (String (d 24) (String (d 20) (String (d 16)
    (String (d 12) (String (d 8) (String (d 4) (String (d 0) rest))))))).

Definition hexdigest (msg : list Z) : string :=
  let '(h0, h1, h2, h3, h4) := digest msg in
  hex32 h0 (hex32 h1 (hex32 h2 (hex32 h3 (hex32 h4 EmptyString)))).

Definition is_hex (c : ascii) : bool :=
  let n := PyStr.code c in
  ((48 <=? n) && (n <=? 57) || (97 <=? n) && (n <=? 102))%N.

End Sha1.

(** ** The table preparation of the sync job ([sync_excel_jira.py]) *)

Module Sync.

(** A cell of the data frame.  The program looks at a cell in three
    ways: through [notna], through the text [Series.astype(str)] writes
    for it in its column, and through the [str()] of the value in the
    row that [df.apply(..., axis=1)] hands over.  pandas converts a
    column and a row to one dtype each, so the two texts of a value that
    is not a string can differ: the integer 1 of a frame of numbers with
    a float column reads [1] in its column and [1.0] in the row; a
    midnight of a column of midnights reads as the date alone in its
    column and with [00:00:00] in the row.  [Missing] stands for a
    missing value with its text ([nan], [NaT], [None]); [Text] for a
    string; [Scalar] for a value that is neither (a number, a boolean, a
    timestamp), with its two texts. *)
Inductive cell : Type :=
| Missing (repr : string)
| Text (s : string)
| Scalar (in_column in_row : string).

Definition notna (c : cell) : bool :=
  match c with Missing _ => false | _ => true end.

(** The cell as [df[col].astype(str)] writes it. *)
Definition cell_str (c : cell) : string :=
  match c with
  | Missing r => r
  | Text s => s
  | Scalar r _ => r
  end.

(** The cell as [str()] reads it in the row of [df.apply]. *)
Definition row_str (c : cell) : string :=
  match c with
  | Missing r => r
  | Text s => s
  | Scalar _ r => r
  end.

(** The missing value of a sheet that was just read. *)
Definition NaN : cell := Missing "nan".

(** A data frame, column by column, in column order. *)
Abbreviation frame := (list (string * list cell)).

Definition columns (df : frame) : list string := fst <$> df.

(** [df[name]] *)
Fixpoint column (df : frame) (name : string) : list cell :=
  match df with
  | [] => []
  | (n, data) :: rest => if decide (n = name) then data else column rest name
  end.

(** [df[name] = data]: in place when the column exists, appended last
    otherwise. *)
Fixpoint set_column (name : string) (data : list cell) (df : frame) : frame :=
  match df with
  | [] => [(name, data)]
  | (n, old) :: rest =>
      if decide (n = name) then (n, data) :: rest
      else (n, old) :: set_column name data rest
  end.

(** [df.insert(pos, name, data)] *)
Definition insert_column (pos : nat) (name : string) (data : list cell)
    (df : frame) : frame :=
  (firstn pos df ++ (name, data) :: skipn pos df)%list.

(** [cols.index(name)] *)
Fixpoint index_of (name : string) (cols : list string) : option nat :=
  match cols with
  | [] => None
  | c :: cs => if decide (c = name) then Some 0 else S <$> index_of name cs
  end.

(** [str(c).strip().lower()] *)
Definition lower_key (c : string) : string := PyStr.lower (PyStr.strip c).

(** [{str(c).strip().lower(): c for c in cols}.get(k)]: a later column
    overwrites an earlier one with the same key. *)
Fixpoint lower_to_orig (cols : list string) (k : string) : option string :=
  match cols with
  | [] => None
  | c :: cs =>
      match lower_to_orig cs k with
      | Some c' => Some c'
      | None => if decide (lower_key c = k) then Some c else None
      end
  end.

(** A column name that is there and truthy. *)
Definition named (o : option string) : option string :=
  match o with
  | Some c => if PyStr.is_empty c then None else Some c
  | None => None
  end.

Definition populated (c : cell) : bool :=
  notna c && negb (PyStr.is_empty (cell_str c)).

(** [cat.where(cat.notna() & (cat.astype(str) != empty), scope)].  The
    cell taken from Scope is the Scope cell of the row: the row that
    [df.apply] hands over afterwards has the dtype common to all columns,
    Scope among them, so the cell reads in it as it does under Scope. *)
Definition fill_from (cat scope : list cell) : list cell :=
  zip_with (fun c s => if populated c then c else s) cat scope.

(** Step (A): Category against Scope. *)
Definition reconcile (df : frame) : frame :=
  let cols := columns df in
  let scope_col := named (lower_to_orig cols "scope") in
  let category_col := named (lower_to_orig cols "category") in
  match category_col, scope_col with
  | Some cat, Some sc =>
      set_column cat (fill_from (column df cat) (column df sc)) df
  | None, Some sc =>
      match index_of sc cols with
      | Some p => insert_column (p + 1) "Category" (column df sc) df
      | None => df
      end
  | _, _ => df
  end.

(** A row of the frame, as [df.apply(..., axis=1)] hands it over. *)
Abbreviation series := (list (string * cell)).

Definition nrows (df : frame) : nat :=
  match df with
  | [] => 0
  | (_, data) :: _ => length data
  end.

Definition record (df : frame) (i : nat) : series :=
  (fun '(n, data) => (n, nth i data NaN)) <$> df.

Definition records (df : frame) : list series :=
  record df <$> seq 0 (nrows df).

(** [row.get(name, default)] *)
Fixpoint series_get (r : series) (name : string) (dflt : cell) : cell :=
  match r with
  | [] => dflt
  | (n, c) :: rest => if decide (n = name) then c else series_get rest name dflt
  end.

(** [str(row.get(col, empty)) if col else empty] *)
Definition part (col : option string) (r : series) : string :=
  match named col with
  | Some c => row_str (series_get r c (Text EmptyString))
  | None => EmptyString
  end.

(** [s or dflt] on strings *)
Definition or_else (s dflt : string) : string :=
  if PyStr.is_empty s then dflt else s.

Definition fingerprint (parts : list string) : string :=
  let base := PyStr.join "|" (PyStr.strip <$> parts) in
  PyStr.take 10 (Sha1.hexdigest (Sha1.encode_utf8 base)).

Definition make_id (app_col ver_col scope_or_cat : option string)
    (r : series) : string :=
  let p0 := part app_col r in
  let p1 := part ver_col r in
  let p2 := part scope_or_cat r in
  let h := fingerprint [p0; p1; p2] in
  or_else p0 "x" +:+ "-" +:+ or_else p1 "na" +:+ "-" +:+ h.

(** The first of the identifier-like names that is a key of the
    lower-cased column dictionary, as the column it stands for. *)
Fixpoint find_candidate (l2o : string -> option string)
    (names : list string) : option string :=
  match names with
  | [] => None
  | n :: ns =>
      match l2o n with
      | Some c => Some c
      | None => find_candidate l2o ns
      end
  end.

Definition candidate_names : list string :=
  ["__id"; "externalid"; "id"; "jira key"; "key"].

(** [a or b] on looked-up column names *)
Definition name_or (a b : option string) : option string :=
  match named a with Some c => Some c | None => b end.

(** Step (B): the [__id] column. *)
Definition assign_id (df : frame) : frame :=
  let l2o := lower_to_orig (columns df) in
  let candidate := find_candidate l2o candidate_names in
  match named candidate with
  | Some c =>
      if decide (c = "__id") then df
      else set_column "__id" (Text <$> (cell_str <$> column df c)) df
  | None =>
      if bool_decide ("__id" ∈ columns df) then df
      else
        let app_col := l2o "application" in
        let ver_col := l2o "version" in
        let scope_or_cat := name_or (l2o "category") (l2o "scope") in
        set_column "__id"
          (Text <$> (make_id app_col ver_col scope_or_cat <$> records df)) df
  end.

(** [ids.duplicated()]: a row repeats an earlier one. *)
Fixpoint duplicated_from (seen ids : list string) : list bool :=
  match ids with
  | [] => []
  | x :: r => bool_decide (x ∈ seen) :: duplicated_from (x :: seen) r
  end.

Definition duplicated (ids : list string) : list bool :=
  duplicated_from [] ids.

Definition occurrences (x : string) (l : list string) : nat :=
  length (filter (fun y => y = x) l).

(** [ids.duplicated(keep=False)]: the row's value occurs more than once. *)
Definition duplicated_keep_false (ids : list string) : list bool :=
  (fun x => bool_decide (1 < occurrences x ids)) <$> ids.

(** [groupby(...).cumcount()]: how many earlier rows of the same group. *)
Fixpoint cumcount_from (seen ids : list string) : list nat :=
  match ids with
  | [] => []
  | x :: r => occurrences x seen :: cumcount_from (x :: seen) r
  end.

Definition cumcount (ids : list string) : list nat := cumcount_from [] ids.

(** [ids.loc[mask]] *)
Fixpoint select (mask : list bool) (ids : list string) : list string :=
  match mask, ids with
  | true :: m, x :: r => x :: select m r
  | false :: m, _ :: r => select m r
  | _, _ => []
  end.

(** [ids.loc[mask] = new], the new values taken in row order. *)
Fixpoint assign_masked (mask : list bool) (ids new : list string)
  : list string :=
  match mask, ids with
  | true :: m, x :: r =>
      match new with
      | n :: new' => n :: assign_masked m r new'
      | [] => x :: assign_masked m r []
      end
  | false :: m, x :: r => x :: assign_masked m r new
  | _, _ => ids
  end.

(** The uniqueness step on the [__id] column, a column of strings. *)
Definition uniquify (ids : list string) : list string :=
  if existsb id (duplicated ids) then
    let dup_index := duplicated_keep_false ids in
    let sub := select dup_index ids in
    assign_masked dup_index ids
      (zip_with (fun x n => x +:+ "-" +:+ PyStr.of_nat n) sub (cumcount sub))
  else ids.

(** What the uniqueness step makes of the identifier [x] of row [i]:
    suffixed with its rank among the rows of the same identifier when
    there are several, left alone otherwise. *)
Definition suffixed (ids : list string) (i : nat) (x : string) : string :=
  if bool_decide (1 < occurrences x ids)
  then x +:+ "-" +:+ PyStr.of_nat (occurrences x (firstn i ids))
  else x.

(** The strings of the [__id] column; [None] for a frame whose [__id]
    column holds a cell that is not a string. *)
Definition id_strings (df : frame) : option (list string) :=
  mapM (fun c => match c with Text s => Some s | _ => None end)
    (column df "__id").

(** The identifiers the job sends, after steps (A), (B) and the
    uniqueness step. *)
Definition final_ids (df : frame) : option (list string) :=
  uniquify <$> id_strings (assign_id (reconcile df)).

(** The cell of row [i] in the column named [col]. *)
Definition cell_at (df : frame) (col : string) (i : nat) : cell :=
  nth i (column df col) NaN.

(** The text of row [i] under the column whose trimmed, lower-cased name
    is [key], as the row handed to [make_id] reads it; the empty string
    when the frame has no such column. *)
Definition text_at (df : frame) (key : string) (i : nat) : string :=
  match lower_to_orig (columns df) key with
  | Some col => row_str (cell_at df col i)
  | None => EmptyString
  end.

(** The Category text of row [i]; the Scope text when the frame has no
    Category column. *)
Definition category_or_scope_at (df : frame) (i : nat) : string :=
  match lower_to_orig (columns df) "category" with
  | Some col => row_str (cell_at df col i)
  | None => text_at df "scope" i
  end.

(** The composite identifier in the words of the specification: the
    application or [x], the version or [na], and the first 10 characters
    of the SHA-1 digest of the three trimmed texts joined by a bar. *)
Definition composite_of (a v c : string) : string :=
  (if decide (a = EmptyString) then "x" else a) +:+ "-" +:+
  (if decide (v = EmptyString) then "na" else v) +:+ "-" +:+
  PyStr.take 10
    (Sha1.hexdigest
       (Sha1.encode_utf8
          (PyStr.strip a +:+ "|" +:+ PyStr.strip v +:+ "|" +:+ PyStr.strip c))).

(** The records as the server receives them: a row per identifier, with
    that identifier under [__id] next to the other fields. *)
Definition posted (ids : list string) (others : list Server.row)
  : list Server.item :=
  zip_with (fun s r => Server.Obj (Server.dict_set "__id" (Server.VStr s) r))
    ids others.

End Sync.

(** ** The read-only views of the serving process ([api_server.py]) *)

Module Views.
Import Server.

(** [GET /health]: the liveness flag and the row count. *)
Definition health : handler (bool * nat) :=
  st <- read ;; ret (true, length st).

(** [GET /releases.json] *)
Definition get_releases_json : handler (list row) := read.

(** [list(row.keys())] *)
Definition keys (r : row) : list string := fst <$> r.

(** The columns of the HTML table: the keys of the first row, [__id]
    moved to the front when it is one of them. *)
Definition html_columns (first : row) : list string :=
  let cols := keys first in
  if bool_decide ("__id" ∈ cols)
  then "__id" :: filter (fun c => c <> "__id") cols
  else cols.

(** The text of one cell: the empty string for a missing key and for
    [None], the [str()] of the value otherwise. *)
Definition html_cell (r : row) (c : string) : string :=
  match lookup_key c r with
  | None | Some VNone => EmptyString
  | Some v => py_str v
  end.

(** [GET /releases], as the header and the cell texts of the table it
    renders; [None] stands for the page without table of an empty store. *)
Definition get_releases_html (st : list row)
  : option (list string * list (list string)) :=
  match st with
  | [] => None
  | first :: _ =>
      let cols := html_columns first in
      Some (cols, (fun r => html_cell r <$> cols) <$> st)
  end.

End Views.

(** ** The ticket search of the sync job ([sync_excel_jira.py]) *)

Module Jira.

(** A parsed JSON document.  The search looks at a number only through
    its truth value. *)
#[local] Unset Elimination Schemes.
Inductive json : Type :=
| JNull
| JBool (b : bool)
| JNum (nonzero : bool)
| JStr (s : string)
| JArr (items : list json)
| JObj (fields : list (string * json)).
#[local] Set Elimination Schemes.

Definition truthy (v : json) : bool :=
  match v with
  | JNull => false
  | JBool b => b
  | JNum nz => nz
  | JStr s => negb (PyStr.is_empty s)
  | JArr items => match items with [] => false | _ => true end
  | JObj fields => match fields with [] => false | _ => true end
  end.

Fixpoint lookup (k : string) (fields : list (string * json)) : option json :=
  match fields with
  | [] => None
  | (k', v) :: rest => if decide (k' = k) then Some v else lookup k rest
  end.

(** [d.get(k, dflt)] *)
Definition get (fields : list (string * json)) (k : string) (dflt : json) : json :=
  default dflt (lookup k fields).

(** [(d.get(k) or {})], which must answer [.get]: the fields of the
    object, none for a falsy value, [None] where Python raises. *)
Definition object_or_empty (v : json) : option (list (string * json)) :=
  if truthy v then match v with JObj f => Some f | _ => None end
  else Some [].

(** One turn of the printing loop of [_extract_and_print_issues]: [None]
    where an attribute lookup raises. *)
Definition printable (it : json) : option unit :=
  match it with
  | JObj f =>
      fields ← object_or_empty (get f "fields" (JObj []));
      _ ← object_or_empty (get fields "status" JNull);
      _ ← object_or_empty (get fields "assignee" JNull);
      Some tt
  | _ => None
  end.

(** [_extract_and_print_issues(data)]: the issues returned, [None] where
    Python raises. *)
Definition _extract_and_print_issues (data : json) : option (list json) :=
  match data with
  | JObj d =>
      issues ←
        match lookup "results" d with
        | Some results =>
            if truthy results then
              match results with
              | JArr (JObj first :: _) => Some (get first "issues" (JArr []))
              | _ => None
              end
            else Some (JArr [])
        | None => Some (get d "issues" (JArr []))
        end;
      if truthy issues then
        match issues with
        | JArr items => _ ← mapM printable items; Some items
        | _ => None
        end
      else Some []
  | _ => None
  end.

(** The value the source gives [PREFERRED_PROJECT]. *)
Definition PREFERRED_PROJECT : option string := None.

(** [resolve_project_key], from the keys [list_project_keys] returned;
    [None] stands for the [RuntimeError] of an empty list. *)
Definition resolve_project_key (preferred : option string)
    (keys : list string) : option string :=
  match keys with
  | [] => None
  | first :: _ =>
      match Sync.named preferred with
      | Some p => if bool_decide (p ∈ keys) then Some p else Some first
      | None => Some first
      end
  end.

Definition build_bounded_jql (project_key : string) (days : Z) : string :=
  "project = " +:+ project_key
  +:+ " AND issuetype in standardIssueTypes() AND updated >= -"
  +:+ PyStr.of_Z days +:+ "d ORDER BY created DESC".

(** [needle in s] *)
Fixpoint starts_with (needle s : string) : bool :=
  match needle, s with
  | EmptyString, _ => true
  | String a n', String b s' => bool_decide (a = b) && starts_with n' s'
  | String _ _, EmptyString => false
  end.

Fixpoint contains (needle s : string) : bool :=
  starts_with needle s ||
  match s with
  | EmptyString => false
  | String _ s' => contains needle s'
  end.

(** An answer of the ticketing system. *)
Record response : Type := Response {
  status_code : Z;
  text : string;
  body : json
}.

(** A request sent to the search endpoint, with its query. *)
Inductive call : Type :=
| GET (jql : string) (max_results : Z)
| POST (jql : string) (max_results : Z).

(** The text of the answer names an unbound query. *)
Definition unbound (r : response) : bool :=
  contains ("non li" +:+ String (ascii_of_nat 233) "e") (text r)
  || contains "unbound" (PyStr.lower (text r)).

(** [fetch_jira_issues], from the resolved project key and the answers to
    the first search, to the narrowed search and to the POST search, in
    that order: the requests sent and the issues returned ([None] where
    reading an answer raises). *)
Definition fetch_jira_issues (jql : option string) (max_results days : Z)
    (project_key : string) (r r2 r3 : response)
  : list call * option (list json) :=
  let query := default (build_bounded_jql project_key days) (Sync.named jql) in
  if decide (status_code r = 200%Z)
  then ([GET query max_results], _extract_and_print_issues (body r))
  else
    let retry := bool_decide (status_code r = 400%Z) && unbound r in
    let query2 :=
      if retry then build_bounded_jql project_key (Z.min 7%Z days) else query in
    let sent :=
      if retry then [GET query max_results; GET query2 max_results]
      else [GET query max_results] in
    if retry && bool_decide (status_code r2 = 200%Z)
    then (sent, _extract_and_print_issues (body r2))
    else
      let sent := (sent ++ [POST query2 max_results])%list in
      if decide (status_code r3 = 200%Z)
      then (sent, _extract_and_print_issues (body r3))
      else (sent, Some []).

End Jira.

(** * Properties *)

(** ** Trimming and decimal rendering *)

(** Closed goals over decidable propositions, by evaluation. *)
Ltac by_evaluation := apply (bool_decide_unpack _); vm_compute; exact I.

Section PyStrFacts.
Import PyStr.

Lemma is_empty_true s : is_empty s = true <-> s = EmptyString.
Proof. destruct s; simpl; split; congruence. Qed.

Lemma is_empty_false s : is_empty s = false <-> s <> EmptyString.
Proof. destruct s; simpl; split; congruence. Qed.

Lemma rstrip_idem s : rstrip (rstrip s) = rstrip s.
Proof.
  induction s as [|c r IH]; simpl; [reflexivity|].
  destruct (isspace c && is_empty (rstrip r)) eqn:E; simpl; [reflexivity|].
  rewrite IH, E. reflexivity.
Qed.

Lemma lstrip_head s :
  lstrip s = EmptyString \/
  exists c r, lstrip s = String c r /\ isspace c = false.
Proof.
  induction s as [|c r IH]; simpl; [now left|].
  destruct (isspace c) eqn:E; [exact IH|]. right. eauto.
Qed.

Lemma strip_idem s : strip (strip s) = strip s.
Proof.
  unfold strip. destruct (lstrip_head s) as [->|(c & r & -> & Hc)].
  - reflexivity.
  - cbn [rstrip]. rewrite Hc. cbn [andb lstrip]. rewrite Hc.
    change (rstrip (String c (rstrip r))) with
      (if isspace c && is_empty (rstrip (rstrip r)) then EmptyString
       else String c (rstrip (rstrip r))).
    rewrite Hc, rstrip_idem. reflexivity.
Qed.

Lemma strip_no_space s :
  all_chars (fun c => negb (isspace c)) s = true -> strip s = s.
Proof.
  unfold strip. induction s as [|c r IH]; simpl; [reflexivity|].
  intros [Hc Hr]%andb_prop. apply negb_true_iff in Hc. rewrite Hc.
  simpl. rewrite Hc. simpl. f_equal.
  specialize (IH Hr). destruct r as [|c' r']; [reflexivity|].
  simpl in Hr. apply andb_prop in Hr as [Hc' _].
  apply negb_true_iff in Hc'. simpl in IH. rewrite Hc' in IH. exact IH.
Qed.

Lemma all_chars_app p s t :
  all_chars p (s +:+ t) = all_chars p s && all_chars p t.
Proof.
  induction s as [|c r IH]; simpl; [reflexivity|].
  rewrite IH. apply andb_assoc.
Qed.

Lemma all_chars_impl (p q : ascii -> bool) s :
  (forall c, p c = true -> q c = true) ->
  all_chars p s = true -> all_chars q s = true.
Proof.
  intros Hpq. induction s as [|c r IH]; simpl; [reflexivity|].
  intros [Hc Hr]%andb_prop. rewrite (Hpq _ Hc), (IH Hr). reflexivity.
Qed.

Lemma isdigit_not_space c : isdigit c = true -> negb (isspace c) = true.
Proof.
  destruct c as [[] [] [] [] [] [] [] []]; vm_compute; congruence.
Qed.

Lemma string_of_uint_digits d :
  all_chars isdigit (NilEmpty.string_of_uint d) = true.
Proof. induction d; simpl; auto. Qed.

Lemma of_nat_digits n : all_chars isdigit (of_nat n) = true.
Proof. apply string_of_uint_digits. Qed.

Lemma of_nat_0 : of_nat 0 = "0".
Proof. reflexivity. Qed.

End PyStrFacts.

(** ** Rows and handlers of the serving process *)

Section ServerFacts.
Import PyStr Server.

Lemma lookup_key_set_same k v r : lookup_key k (dict_set k v r) = Some v.
Proof.
  induction r as [|[k' v'] r IH]; simpl.
  - rewrite decide_True by reflexivity. reflexivity.
  - destruct (decide (k' = k)) as [->|Hne]; simpl.
    + rewrite decide_True by reflexivity. reflexivity.
    + rewrite decide_False by assumption. exact IH.
Qed.

Lemma lookup_key_set_other k k' v r :
  k <> k' -> lookup_key k' (dict_set k v r) = lookup_key k' r.
Proof.
  intros Hne. induction r as [|[k0 v0] r IH]; simpl.
  - rewrite decide_False by assumption. reflexivity.
  - destruct (decide (k0 = k)) as [->|Hk]; simpl.
    + rewrite !decide_False by assumption. reflexivity.
    + destruct (decide (k0 = k')); [reflexivity | exact IH].
Qed.

Lemma dict_set_same_value k v r : lookup_key k r = Some v -> dict_set k v r = r.
Proof.
  induction r as [|[k0 v0] r IH]; simpl; [discriminate|].
  destruct (decide (k0 = k)) as [->|Hk].
  - now intros [= ->].
  - intros H. now rewrite IH.
Qed.

Lemma row_id_of_id_field r s :
  id_field r = Some (VStr s) -> s <> EmptyString -> _row_id r = strip s.
Proof.
  unfold id_field, _row_id, dict_get. intros -> Hs. simpl.
  unfold py_or. simpl. apply is_empty_false in Hs. rewrite Hs. reflexivity.
Qed.

Lemma id_or_fallback_not_empty i r : id_or_fallback i r <> EmptyString.
Proof.
  unfold id_or_fallback. destruct (is_empty (_row_id r)) eqn:E.
  - discriminate.
  - now apply is_empty_false.
Qed.

Lemma fallback_no_space i :
  all_chars (fun c => negb (isspace c)) ("row-" +:+ of_nat i) = true.
Proof.
  rewrite all_chars_app. apply andb_true_intro. split; [reflexivity|].
  eapply all_chars_impl; [apply isdigit_not_space | apply of_nat_digits].
Qed.

Lemma id_or_fallback_trimmed i r : strip (id_or_fallback i r) = id_or_fallback i r.
Proof.
  unfold id_or_fallback. destruct (is_empty (_row_id r)).
  - apply strip_no_space, fallback_no_space.
  - unfold _row_id. apply strip_idem.
Qed.

(** The probed identifier of a row just annotated is the identifier it
    was annotated with. *)
Lemma row_id_annotated i r :
  _row_id (dict_set "__id" (VStr (id_or_fallback i r)) r) = id_or_fallback i r.
Proof.
  rewrite (row_id_of_id_field _ (id_or_fallback i r)).
  - apply id_or_fallback_trimmed.
  - apply lookup_key_set_same.
  - apply id_or_fallback_not_empty.
Qed.

Lemma attach_from_objects i items :
  Forall is_object items ->
  exists rows, attach_from i items = Ok rows /\ length rows = length items.
Proof.
  intros H. revert i. induction H as [|x items Hx _ IH]; intros i; simpl.
  - now exists [].
  - destruct x as [r|]; [|destruct Hx].
    destruct (IH (S i)) as (rows & -> & Hlen).
    eexists. split; [reflexivity|]. simpl. now rewrite Hlen.
Qed.

Lemma attach_from_not_object i items :
  ~ Forall is_object items ->
  attach_from i items = Raise (BadRequest "Each item must be an object").
Proof.
  revert i. induction items as [|x items IH]; intros i H; simpl.
  - destruct H. constructor.
  - destruct x as [r|]; [|reflexivity].
    rewrite IH; [reflexivity|]. intros HF. apply H. constructor; [exact I|exact HF].
Qed.

(** The ingest handler, case by case. *)
Lemma receive_releases_unauthorized a p st :
  a <> bearer -> receive_releases a p st = (st, Raise Unauthorized).
Proof.
  intros Ha. unfold receive_releases, bind, _auth_or_401.
  rewrite decide_False by exact Ha. reflexivity.
Qed.

Lemma receive_releases_array items st :
  receive_releases bearer (BArray items) st =
  match _attach_ids items with
  | Ok rows => (rows, Ok (length rows))
  | Raise e => ([], Raise e)
  end.
Proof.
  unfold receive_releases, bind, _auth_or_401, bearer.
  rewrite decide_True by reflexivity. simpl.
  unfold lift. destruct (_attach_ids items); reflexivity.
Qed.

Lemma receive_releases_not_array p st :
  (forall items, p <> BArray items) ->
  receive_releases bearer p st =
  (st, Raise (BadRequest "Expected a list of releases")).
Proof.
  intros Hp. unfold receive_releases, bind, _auth_or_401, bearer.
  rewrite decide_True by reflexivity. simpl.
  destruct p; [destruct (Hp items); reflexivity | reflexivity..].
Qed.

End ServerFacts.

(** ** Ingest *)

Section Ingest.
Import PyStr Server.

(** C7.  Ingest is idempotent: for every list of row objects (a payload
    that validation accepts) and every prior store, a second ingest of
    the same payload leaves exactly the store and the answer of the
    first: the same rows in the same order under the same identifiers,
    one stored row per posted row. *)
Theorem ingest_idempotent (st : store) (items : list item) :
  Forall is_object items ->
  let once := receive_releases bearer (BArray items) st in
  let twice := receive_releases bearer (BArray items) (fst once) in
  twice = once /\
  snd once = Ok (length items) /\
  length (fst once) = length items /\
  list_ids (fst twice) = list_ids (fst once) /\
  _attach_ids items = Ok (fst once).
Proof.
  intros Hobj. cbv zeta. rewrite !receive_releases_array.
  destruct (attach_from_objects 0 items Hobj) as (rows & Hrows & Hlen).
  unfold _attach_ids. rewrite Hrows. simpl. rewrite Hlen. auto.
Qed.

Lemma ingest_idempotent_witness :
  let items := [Obj [("Application", VStr "A")]; Obj [("__id", VStr "k")]] in
  Forall is_object items /\
  fst (receive_releases bearer (BArray items)
         (fst (receive_releases bearer (BArray items) []))) =
  [[("Application", VStr "A"); ("__id", VStr "row-0")]; [("__id", VStr "k")]].
Proof.
  cbv zeta.
  assert (H : Forall is_object
                [Obj [("Application", VStr "A")]; Obj [("__id", VStr "k")]])
    by (repeat constructor).
  split; [exact H|].
  destruct (ingest_idempotent [] _ H) as (-> & _). reflexivity.
Defined.

(** C4.  A posted array with an element that is not an object is answered
    with status 400 after the store has been emptied: the prior rows are
    gone, where the specification keeps them. *)
Theorem ingest_rejected_after_clear :
  let st := [[("__id", VStr "a")]] in
  let payload := BArray [Obj [("__id", VStr "b")]; NotObj] in
  receive_releases bearer payload st =
    ([], Raise (BadRequest "Each item must be an object")) /\
  fst (receive_releases bearer payload st) <> st.
Proof. split; [reflexivity | discriminate]. Qed.

(** The two rejections of an ingest side by side: a body that is not an
    array leaves the store alone, an array with a bad element empties it. *)
Lemma ingest_rejections (st : store) :
  (forall p, (forall items, p <> BArray items) ->
     fst (receive_releases bearer p st) = st) /\
  (forall items, ~ Forall is_object items ->
     fst (receive_releases bearer (BArray items) st) = []).
Proof.
  split.
  - intros p Hp. now rewrite receive_releases_not_array.
  - intros items H. rewrite receive_releases_array. unfold _attach_ids.
    now rewrite attach_from_not_object.
Qed.

End Ingest.

(** ** Field patch *)

Section FieldPatch.
Import PyStr Server.

Lemma patch_cell_unauthorized editable rid a b st :
  a <> bearer -> patch_cell editable rid a b st = (st, Raise Unauthorized).
Proof.
  intros Ha. unfold patch_cell, bind, _auth_or_401.
  rewrite decide_False by exact Ha. reflexivity.
Qed.

(** The patch handler once the header and the body went through. *)
Lemma patch_cell_field editable rid b st f :
  body_field b = Ok f ->
  patch_cell editable rid bearer b st =
  if is_empty f then (st, Raise (BadRequest "Missing 'field'"))
  else if not_editable editable f then (st, Raise (Forbidden f))
  else match find_row_by_id st rid with
       | None => (st, Raise (NotFound rid (firstn 5 (list_ids st))))
       | Some (i, r) =>
           let r' := dict_set f (body_value b) r in
           (<[i := r']> st, Ok (Patched (_row_id r') f (body_value b)))
       end.
Proof.
  intros Hf. unfold patch_cell, bind, _auth_or_401, bearer.
  rewrite decide_True by reflexivity. simpl. unfold lift. rewrite Hf.
  destruct (is_empty f); simpl; [reflexivity|].
  destruct (not_editable editable f); simpl; [reflexivity|].
  destruct (find_row_by_id st rid) as [[i r]|]; reflexivity.
Qed.

Lemma patch_cell_bad_body editable rid b st e :
  body_field b = Raise e ->
  patch_cell editable rid bearer b st = (st, Raise e).
Proof.
  intros Hf. unfold patch_cell, bind, _auth_or_401, bearer.
  rewrite decide_True by reflexivity. simpl. unfold lift. now rewrite Hf.
Qed.

(** C10.  The checks of a patch request come in the order authorization,
    blank field, editable field, identifier: a wrong header gives 401
    whatever the rest; with the right header a blank field name gives 400
    and a field outside an active allow-list gives 403, for every
    identifier and every store, resolvable or not; 404 is only reached
    with a non-blank, editable field.  In each case the store is left as
    it was. *)
Theorem patch_error_precedence (editable : option (list string))
    (rid : string) (a : option string) (b : body) (st : store) :
  let out := patch_cell editable rid a b st in
  (a <> bearer -> out = (st, Raise Unauthorized)) /\
  (a = bearer -> forall f, body_field b = Ok f ->
     (f = EmptyString ->
        out = (st, Raise (BadRequest "Missing 'field'"))) /\
     (f <> EmptyString -> not_editable editable f = true ->
        out = (st, Raise (Forbidden f))) /\
     (f <> EmptyString -> not_editable editable f = false ->
        find_row_by_id st rid = None ->
        out = (st, Raise (NotFound rid (firstn 5 (list_ids st)))))).
Proof.
  cbv zeta. split.
  - apply patch_cell_unauthorized.
  - intros -> f Hf. rewrite (patch_cell_field _ _ _ _ _ Hf).
    split; [|split].
    + intros ->. reflexivity.
    + intros Hne%is_empty_false He. now rewrite Hne, He.
    + intros Hne%is_empty_false He Hfind. now rewrite Hne, He, Hfind.
Qed.

(** A blank field name with an identifier that resolves to nothing is a
    400, and a field outside the allow-list a 403, on the empty store. *)
Lemma patch_error_precedence_witness :
  status_code <$> [Unauthorized; BadRequest "Missing 'field'"; Forbidden "Prod"]
    = [401; 400; 403]%Z /\
  patch_cell EDITABLE_COLUMNS "nowhere" None
      (BObject [("field", VStr " ")]) [] = ([], Raise Unauthorized) /\
  patch_cell EDITABLE_COLUMNS "nowhere" bearer
      (BObject [("field", VStr " ")]) [] =
    ([], Raise (BadRequest "Missing 'field'")) /\
  patch_cell (Some ["Category"]) "nowhere" bearer
      (BObject [("field", VStr "Prod")]) [] = ([], Raise (Forbidden "Prod")).
Proof.
  split; [reflexivity|]. split; [|split].
  - destruct (patch_error_precedence EDITABLE_COLUMNS "nowhere" None
                (BObject [("field", VStr " ")]) []) as [H401 _].
    apply H401. discriminate.
  - destruct (patch_error_precedence EDITABLE_COLUMNS "nowhere" bearer
                (BObject [("field", VStr " ")]) []) as [_ H].
    destruct (H eq_refl EmptyString eq_refl) as (H400 & _).
    apply H400. reflexivity.
  - destruct (patch_error_precedence (Some ["Category"]) "nowhere" bearer
                (BObject [("field", VStr "Prod")]) []) as [_ H].
    destruct (H eq_refl "Prod" eq_refl) as (_ & H403 & _).
    apply H403; [discriminate | reflexivity].
Defined.

Lemma id_field_insert (st : store) i r r' :
  st !! i = Some r -> id_field r' = id_field r ->
  id_field <$> <[i := r']> st = id_field <$> st.
Proof.
  intros Hi Hid. rewrite list_fmap_insert, Hid.
  apply list_insert_id. now rewrite list_lookup_fmap, Hi.
Qed.

Lemma find_row_by_id_lookup st rid i r :
  find_row_by_id st rid = Some (i, r) -> st !! i = Some r.
Proof.
  unfold find_row_by_id, first_with_id.
  destruct (list_find _ st) as [hit|] eqn:E1.
  - intros [= ->]. now apply list_find_Some in E1.
  - destruct (strip_suffix_num _) as [base|]; [|discriminate].
    destruct (is_empty base); [discriminate|].
    intros E2. now apply list_find_Some in E2.
Qed.

(** C5 as the program has it.  A patch request whose trimmed field name
    is not [__id] leaves the [__id] of every stored row as it was (and
    the number of rows), whatever the identifier, the value, the header
    and the allow-list; only a patch that names [__id] itself rewrites
    an identifier. *)
Theorem patch_keeps_id (editable : option (list string)) (rid : string)
    (a : option string) (b : body) (st : store) :
  body_field b <> Ok "__id" ->
  let st' := fst (patch_cell editable rid a b st) in
  id_field <$> st' = id_field <$> st /\ length st' = length st.
Proof.
  intros Hb. cbv zeta.
  destruct (decide (a = bearer)) as [->|Ha];
    [|now rewrite patch_cell_unauthorized].
  destruct (body_field b) as [f|e] eqn:Hf;
    [|now rewrite (patch_cell_bad_body _ _ _ _ _ Hf)].
  rewrite (patch_cell_field _ _ _ _ _ Hf).
  destruct (is_empty f); [easy|].
  destruct (not_editable editable f); [easy|].
  destruct (find_row_by_id st rid) as [[i r]|] eqn:Hfind; [|easy].
  simpl. split; [|apply length_insert].
  apply (id_field_insert _ _ r); [eapply find_row_by_id_lookup; eauto|].
  unfold id_field. apply lookup_key_set_other. congruence.
Qed.

Lemma patch_keeps_id_witness :
  let st := [[("__id", VStr "a"); ("Prod", VStr "no")]; [("__id", VStr "b")]] in
  let b := BObject [("field", VStr " Prod "); ("value", VStr "yes")] in
  fst (patch_cell EDITABLE_COLUMNS "a" bearer b st) =
    [[("__id", VStr "a"); ("Prod", VStr "yes")]; [("__id", VStr "b")]] /\
  id_field <$> fst (patch_cell EDITABLE_COLUMNS "a" bearer b st) =
    [Some (VStr "a"); Some (VStr "b")].
Proof.
  cbv zeta. split; [reflexivity|].
  refine (proj1 (patch_keeps_id EDITABLE_COLUMNS "a" bearer
                   (BObject [("field", VStr " Prod "); ("value", VStr "yes")])
                   [[("__id", VStr "a"); ("Prod", VStr "no")];
                    [("__id", VStr "b")]] _)).
  discriminate.
Defined.

(** C5 as stated fails: with every column editable, as the source sets
    it, a patch that names the field [__id] is accepted and replaces the
    identifier of the resolved row. *)
Lemma patch_rewrites_id :
  let st := [[("__id", VStr "a")]] in
  let b := BObject [("field", VStr "__id"); ("value", VStr "b")] in
  patch_cell EDITABLE_COLUMNS "a" bearer b st =
    ([[("__id", VStr "b")]], Ok (Patched "b" "__id" (VStr "b"))) /\
  id_field <$> fst (patch_cell EDITABLE_COLUMNS "a" bearer b st)
    <> id_field <$> st.
Proof. split; [reflexivity | discriminate]. Qed.

End FieldPatch.

(** ** The row store along a sequence of requests *)

Section StoreInvariant.
Import PyStr Server.

Lemma good_id_annotated i r :
  good_id (id_field (dict_set "__id" (VStr (id_or_fallback i r)) r)).
Proof.
  exists (id_or_fallback i r). unfold id_field.
  rewrite lookup_key_set_same.
  auto using id_or_fallback_not_empty, id_or_fallback_trimmed.
Qed.

Lemma attach_from_ids i items rows :
  attach_from i items = Ok rows ->
  id_field <$> rows = (fun s => Some (VStr s)) <$> effective_ids i items.
Proof.
  revert i rows. induction items as [|x items IH]; intros i rows; simpl.
  - now intros [= <-].
  - destruct x as [r|]; [|discriminate].
    destruct (attach_from (S i) items) as [out|] eqn:E; [|discriminate].
    intros [= <-]. rewrite fmap_cons, (IH _ _ E). simpl. f_equal.
    unfold id_field. apply lookup_key_set_same.
Qed.

Lemma good_ids_of_effective i items :
  Forall good_id ((fun s => Some (VStr s)) <$> effective_ids i items).
Proof.
  revert i. induction items as [|x items IH]; intros i; simpl.
  - constructor.
  - destruct x as [r|]; [|apply IH]. rewrite fmap_cons. constructor; [|apply IH].
    exists (id_or_fallback i r).
    auto using id_or_fallback_not_empty, id_or_fallback_trimmed.
Qed.

(** What an ingest leaves in the store. *)
Lemma receive_releases_store a p st :
  let st' := fst (receive_releases a p st) in
  st' = st \/ st' = [] \/
  exists items, a = bearer /\ p = BArray items /\
                id_field <$> st' =
                (fun s => Some (VStr s)) <$> effective_ids 0 items.
Proof.
  cbv zeta. destruct (decide (a = bearer)) as [->|Ha];
    [|left; now rewrite receive_releases_unauthorized].
  destruct p as [items| |];
    [|left; now rewrite receive_releases_not_array..].
  rewrite receive_releases_array. unfold _attach_ids.
  destruct (attach_from 0 items) as [rows|] eqn:E; [|now (right; left)].
  right; right. exists items. simpl. eauto using attach_from_ids.
Qed.

(** What a patch that does not name [__id] leaves of the identifiers. *)
Lemma patch_cell_id_fields editable rid a b st :
  body_field b <> Ok "__id" ->
  id_field <$> fst (patch_cell editable rid a b st) = id_field <$> st.
Proof.
  intros Hb.
  destruct (decide (a = bearer)) as [->|Ha];
    [|now rewrite patch_cell_unauthorized].
  destruct (body_field b) as [f|e] eqn:Hf;
    [|now rewrite (patch_cell_bad_body _ _ _ _ _ Hf)].
  rewrite (patch_cell_field _ _ _ _ _ Hf).
  destruct (is_empty f); [easy|].
  destruct (not_editable editable f); [easy|].
  destruct (find_row_by_id st rid) as [[i r]|] eqn:Hfind; [|easy].
  simpl. apply (id_field_insert _ _ r); [eapply find_row_by_id_lookup; eauto|].
  unfold id_field. apply lookup_key_set_other. congruence.
Qed.

(** On a store of good identifiers a rebuild changes nothing. *)
Lemma rebuild_ids_store a st :
  Forall good_id (id_field <$> st) -> fst (rebuild_ids a st) = st.
Proof.
  intros Hgood. unfold rebuild_ids, bind, _auth_or_401.
  destruct (decide (a = Some ("Bearer " +:+ API_KEY))); [|reflexivity].
  simpl. rewrite <- (list_fmap_id st) at 2. rewrite <- imap_const.
  apply imap_ext. intros i r Hi. simpl.
  apply dict_set_same_value.
  rewrite Forall_fmap, Forall_lookup in Hgood.
  destruct (Hgood i r Hi) as (s & Hs & Hne & Htrim).
  unfold id_or_fallback. rewrite (row_id_of_id_field r s Hs Hne), Htrim.
  apply is_empty_false in Hne. rewrite Hne. exact Hs.
Qed.

Lemma serve_good st q :
  ~ patches_id q ->
  Forall good_id (id_field <$> st) ->
  Forall good_id (id_field <$> serve st q).
Proof.
  intros Hq Hgood. destruct q as [a p|rid a b|a]; simpl.
  - destruct (receive_releases_store a p st) as [->|[->|(items & _ & _ & ->)]];
      [assumption | constructor | apply good_ids_of_effective].
  - now rewrite patch_cell_id_fields.
  - now rewrite rebuild_ids_store.
Qed.

Lemma serve_distinct st q :
  ~ patches_id q -> distinct_ingest q ->
  Forall good_id (id_field <$> st) ->
  NoDup (id_field <$> st) -> NoDup (id_field <$> serve st q).
Proof.
  intros Hq Hd Hgood Hnd. destruct q as [a p|rid a b|a]; simpl.
  - destruct (receive_releases_store a p st) as [->|[->|(items & _ & -> & ->)]];
      [assumption | constructor |].
    apply NoDup_fmap_2; [|exact Hd]. intros x y [= ->]. reflexivity.
  - now rewrite patch_cell_id_fields.
  - now rewrite rebuild_ids_store.
Qed.

Lemma run_snoc qs q : run (qs ++ [q]) = serve (run qs) q.
Proof. unfold run. now rewrite foldl_app. Qed.

Lemma run_good qs :
  Forall (fun q => ~ patches_id q) qs -> Forall good_id (id_field <$> run qs).
Proof.
  induction qs as [|q qs IH] using rev_ind; intros H.
  - constructor.
  - apply Forall_app in H as [Hqs Hq]. apply Forall_inv in Hq.
    rewrite run_snoc. apply serve_good; [exact Hq | exact (IH Hqs)].
Qed.

(** C2 as the program has it.  From the empty store, after every
    sequence of ingest, patch and rebuild requests none of whose patches
    names the field [__id], every stored row carries a non-empty string
    under [__id]; and these identifiers are pairwise distinct when each
    ingested array came with pairwise distinct identifiers (the probed
    identifier of a row, [row-<index>] where it has none).  The server
    itself removes no duplicate. *)
Theorem store_invariant (qs : list request) :
  Forall (fun q => ~ patches_id q) qs ->
  Forall has_id (run qs) /\
  (Forall distinct_ingest qs -> NoDup (id_field <$> run qs)).
Proof.
  intros Hqs. split.
  - pose proof (run_good qs Hqs) as H. rewrite Forall_fmap in H.
    eapply Forall_impl; [exact H|]. intros r (s & Hs & Hne & _).
    exists s. auto.
  - induction qs as [|q qs IH] using rev_ind; intros Hd.
    + constructor.
    + apply Forall_app in Hqs as [Hqs Hq]. apply Forall_inv in Hq.
      apply Forall_app in Hd as [Hds Hdq]. apply Forall_inv in Hdq.
      rewrite run_snoc. apply serve_distinct; auto using run_good.
Qed.

Lemma store_invariant_witness :
  let qs :=
    [Ingest bearer (BArray [Obj [("ID", VInt 7)]; Obj [("Name", VStr "n")]]);
     Patch "7" bearer (BObject [("field", VStr "Name"); ("value", VStr "m")]);
     Rebuild bearer] in
  run qs = [[("ID", VInt 7); ("__id", VStr "7"); ("Name", VStr "m")];
            [("Name", VStr "n"); ("__id", VStr "row-1")]] /\
  Forall has_id (run qs) /\ NoDup (id_field <$> run qs).
Proof.
  cbv zeta. split; [reflexivity|].
  assert (Hp : Forall (fun q => ~ patches_id q)
    [Ingest bearer (BArray [Obj [("ID", VInt 7)]; Obj [("Name", VStr "n")]]);
     Patch "7" bearer (BObject [("field", VStr "Name"); ("value", VStr "m")]);
     Rebuild bearer]).
  { repeat constructor; simpl; try tauto. discriminate. }
  destruct (store_invariant _ Hp) as [Hids Hnd]. split; [exact Hids|].
  apply Hnd. apply Forall_cons; split; [simpl; by_evaluation|].
  repeat constructor.
Defined.

(** C2 as stated fails on each count: two posted rows with the same
    identifier are both stored under it; a row posted as [row-1] and a
    second row without identifier are both stored as [row-1]; and a
    patch of the field [__id] to the empty string leaves a row with an
    empty [__id]. *)
Lemma store_invariant_broken :
  let dup := [Ingest bearer (BArray [Obj [("__id", VStr "k")];
                                      Obj [("__id", VStr "k")]])] in
  let mix := [Ingest bearer (BArray [Obj [("__id", VStr "row-1")]; Obj []])] in
  let blank :=
    [Ingest bearer (BArray [Obj []]);
     Patch "row-0" bearer
       (BObject [("field", VStr "__id"); ("value", VStr EmptyString)])] in
  (run dup = [[("__id", VStr "k")]; [("__id", VStr "k")]] /\
   ~ NoDup (id_field <$> run dup)) /\
  (run mix = [[("__id", VStr "row-1")]; [("__id", VStr "row-1")]] /\
   ~ NoDup (id_field <$> run mix)) /\
  (run blank = [[("__id", VStr EmptyString)]] /\ ~ Forall has_id (run blank)).
Proof.
  cbv zeta. repeat split; try reflexivity; try by_evaluation.
  intros H. apply Forall_inv in H as (s & Hs & Hne).
  vm_compute in Hs. congruence.
Qed.

End StoreInvariant.

(** ** The resolver *)

Section Resolver.
Import PyStr Server.

Lemma rstrip_fixed_last s : rstrip s = s -> last_is_space s = false.
Proof.
induction s as [|c r IH]; [reflexivity|]. simpl.
destruct (isspace c && is_empty (rstrip r)) eqn:E; [discriminate|].
intros [= Hr]. destruct r as [|c' r']; [|exact (IH Hr)].
simpl in E. now rewrite andb_true_r in E.
Qed.

Lemma strip_last s : last_is_space (strip s) = false.
Proof. apply rstrip_fixed_last. unfold strip. apply rstrip_idem. Qed.

Lemma last_is_space_app s t :
t <> EmptyString -> last_is_space (s +:+ t) = last_is_space t.
Proof.
intros Ht. induction s as [|c r IH]; [reflexivity|].
simpl. destruct (r +:+ t) eqn:E; [|exact IH].
destruct r; simpl in E; [contradiction | discriminate].
Qed.

Lemma digits_to_end_digits ds :
digits_to_end ds = true -> last_is_space ds = false ->
all_chars isdigit ds = true.
Proof.
induction ds as [|c r IH]; [discriminate|]. simpl.
intros [Hc Hr]%andb_prop. rewrite Hc. simpl.
destruct r as [|c' r']; [reflexivity|]. intros Hlast.
apply orb_prop in Hr as [Hr|Hr]; [|exact (IH Hr Hlast)].
simpl in Hr. apply bool_decide_eq_true in Hr as [= -> ->].
discriminate Hlast.
Qed.

Lemma digits_digits_to_end ds :
ds <> EmptyString -> all_chars isdigit ds = true -> digits_to_end ds = true.
Proof.
induction ds as [|c r IH]; [contradiction|]. intros _. simpl.
intros [Hc Hr]%andb_prop. rewrite Hc. simpl.
destruct r as [|c' r']; [reflexivity|].
rewrite IH by (discriminate || assumption). apply orb_true_r.
Qed.

Lemma digits_no_suffix ds : all_chars isdigit ds = true -> before_suffix ds = None.
Proof.
induction ds as [|c r IH]; [reflexivity|]. simpl.
intros [Hc Hr]%andb_prop. rewrite (IH Hr).
destruct (bool_decide (c = "-"%char)) eqn:E; [|reflexivity].
apply bool_decide_eq_true in E. subst c. discriminate Hc.
Qed.

Lemma before_suffix_intro b ds :
ds <> EmptyString -> all_chars isdigit ds = true ->
before_suffix (b +:+ "-" +:+ ds) = Some b.
Proof.
intros Hne Hds. induction b as [|c r IH]; simpl.
- change (EmptyString +:+ ds) with ds.
  rewrite (digits_no_suffix _ Hds), (digits_digits_to_end _ Hne Hds).
  reflexivity.
- simpl in IH. now rewrite IH.
Qed.

Lemma before_suffix_elim q b :
before_suffix q = Some b ->
exists ds, q = b +:+ "-" +:+ ds /\ digits_to_end ds = true.
Proof.
revert b. induction q as [|c r IH]; intros b; [discriminate|]. simpl.
destruct (before_suffix r) as [b'|].
- intros [= <-]. destruct (IH b' eq_refl) as (ds & -> & Hds).
  exists ds. auto.
- destruct (bool_decide (c = "-"%char)) eqn:Ec; [|discriminate].
  destruct (digits_to_end r) eqn:Hr; [|discriminate].
  intros [= <-]. apply bool_decide_eq_true in Ec. subst c.
  exists r. auto.
Qed.

Lemma digits_to_end_not_empty ds : digits_to_end ds = true -> ds <> EmptyString.
Proof. destruct ds; [discriminate|congruence]. Qed.

(** On a trimmed request the suffix pattern matches exactly when the
    request is a base, a hyphen and digits. *)
Lemma before_suffix_trimmed s b :
before_suffix (strip s) = Some b -> numeric_suffix (strip s) b.
Proof.
intros H. destruct (before_suffix_elim _ _ H) as (ds & Hq & Hds).
pose proof (digits_to_end_not_empty _ Hds) as Hne.
exists ds. repeat split; [exact Hq | exact Hne |].
apply digits_to_end_digits; [exact Hds|].
rewrite <- (last_is_space_app (b +:+ "-") ds Hne).
replace ((b +:+ "-") +:+ ds) with (strip s); [apply strip_last|].
rewrite Hq. clear. induction b as [|c r IH]; [reflexivity|].
change (String c (r +:+ "-" +:+ ds) = String c ((r +:+ "-") +:+ ds)).
f_equal. exact IH.
Qed.

Lemma strip_suffix_num_intro s b :
numeric_suffix (strip s) b -> no_line_feed b = true ->
strip_suffix_num (strip s) = Some (strip b).
Proof.
intros (ds & Hq & Hne & Hds) Hb. unfold strip_suffix_num, re_match_group1.
rewrite strip_idem, Hq, (before_suffix_intro _ _ Hne Hds), Hb. reflexivity.
Qed.

Lemma strip_suffix_num_elim s base :
strip_suffix_num (strip s) = Some base ->
exists b, numeric_suffix (strip s) b /\ base = strip b.
Proof.
unfold strip_suffix_num, re_match_group1. rewrite strip_idem.
destruct (before_suffix (strip s)) as [b|] eqn:E; [|discriminate].
destruct (no_line_feed b); [|discriminate]. intros [= <-].
exists b. split; [now apply before_suffix_trimmed | reflexivity].
Qed.

(** The suffix pattern on a few requests. *)
Example strip_suffix_num_plain : strip_suffix_num "APP-1.0-ab12-3" = Some "APP-1.0-ab12".
Proof. reflexivity. Qed.

Example strip_suffix_num_spaces : strip_suffix_num " a -12 " = Some "a".
Proof. reflexivity. Qed.

Example strip_suffix_num_no_digits : strip_suffix_num "a-1b" = None.
Proof. reflexivity. Qed.

Example strip_suffix_num_no_base : strip_suffix_num "-5" = Some EmptyString.
Proof. reflexivity. Qed.

Example strip_suffix_num_line_feed :
strip_suffix_num (String "a" (String "010" "b-1")) = None.
Proof. reflexivity. Qed.

(** C6 as the program has it.  The resolver trims the request [rid] to
    [q].  (1) A first row, in stored order, whose probed identifier is [q]
    is the answer, whatever else matches.  (2) With no such row, and [q] a
    base followed by a hyphen and digits, the base free of line feeds and
    not blank, the answer is the first row whose probed identifier is the
    trimmed base, if there is one.  (3) With no such row and no such
    suffix, or a blank base, nothing is found.  (4) When nothing is found
    the read endpoint raises 404 with the first five known identifiers
    and leaves the store as it is.  (5) Whatever is found is a stored row
    at the position given. *)
Theorem resolve_by_identifier (st : store) (rid : string) :
let q := normalize_id rid in
(forall hit, first_with_id st q = Some hit ->
   find_row_by_id st rid = Some hit) /\
(first_with_id st q = None ->
 forall b, numeric_suffix q b -> no_line_feed b = true ->
   strip b <> EmptyString ->
   find_row_by_id st rid = first_with_id st (strip b)) /\
(first_with_id st q = None ->
 (forall b, numeric_suffix q b -> strip b = EmptyString) ->
   find_row_by_id st rid = None) /\
(find_row_by_id st rid = None ->
   get_row rid st = (st, Raise (NotFound rid (firstn 5 (list_ids st))))) /\
(forall i r, find_row_by_id st rid = Some (i, r) ->
   st !! i = Some r /\
   (_row_id r = q \/ exists b, numeric_suffix q b /\ _row_id r = strip b) /\
   forall j r', st !! j = Some r' -> j < i -> _row_id r' <> _row_id r).
Proof.
cbv zeta. unfold normalize_id. repeat split.
- intros hit H. unfold find_row_by_id, normalize_id. now rewrite H.
- intros Hnone b Hsuf Hnl Hb. unfold find_row_by_id, normalize_id.
  rewrite Hnone, (strip_suffix_num_intro _ _ Hsuf Hnl).
  apply is_empty_false in Hb. now rewrite Hb.
- intros Hnone Hall. unfold find_row_by_id, normalize_id. rewrite Hnone.
  destruct (strip_suffix_num (strip rid)) as [base|] eqn:E; [|reflexivity].
  destruct (strip_suffix_num_elim _ _ E) as (b & Hsuf & ->).
  now rewrite (Hall b Hsuf).
- intros H. unfold get_row, bind, read. simpl. now rewrite H.
- eapply find_row_by_id_lookup; eauto.
- revert H. unfold find_row_by_id, normalize_id, first_with_id.
  destruct (list_find _ st) as [hit|] eqn:E1.
  + intros [= ->]. apply list_find_Some in E1 as (_ & Hid & _). now left.
  + destruct (strip_suffix_num _) as [base|] eqn:E; [|discriminate].
    destruct (is_empty base); [discriminate|]. intros E2.
    destruct (strip_suffix_num_elim _ _ E) as (b & Hsuf & ->).
    apply list_find_Some in E2 as (_ & Hid & _). right. eauto.
- revert H. unfold find_row_by_id, normalize_id, first_with_id.
  destruct (list_find _ st) as [hit|] eqn:E1.
  + intros [= ->]. apply list_find_Some in E1 as (_ & Hid & Hfirst).
    intros j r' Hj Hlt. rewrite Hid. eauto.
  + destruct (strip_suffix_num _) as [base|] eqn:E; [|discriminate].
    destruct (is_empty base); [discriminate|]. intros E2.
    apply list_find_Some in E2 as (_ & Hid & Hfirst).
    intros j r' Hj Hlt. rewrite Hid. eauto.
Qed.

End Resolver.

(** ** The uniqueness step of the sync job *)

Section Uniqueness.
Import PyStr Sync.

Lemma occurrences_cons x y l :
occurrences x (y :: l) = (if decide (y = x) then 1 else 0) + occurrences x l.
Proof.
unfold occurrences. rewrite filter_cons.
destruct (decide (y = x)); reflexivity.
Qed.

Lemma occurrences_app x l1 l2 :
occurrences x (l1 ++ l2) = occurrences x l1 + occurrences x l2.
Proof. unfold occurrences. now rewrite filter_app, length_app. Qed.

Lemma occurrences_not_in x l : x ∉ l -> occurrences x l = 0.
Proof.
induction l as [|y l IH]; [reflexivity|]. intros H.
apply not_elem_of_cons in H as [Hne Hl]. rewrite occurrences_cons, (IH Hl).
now rewrite decide_False by congruence.
Qed.

Lemma occurrences_in x l : x ∈ l -> 0 < occurrences x l.
Proof.
induction l as [|y l IH]; [now intros ?%elem_of_nil|].
rewrite occurrences_cons. destruct (decide (y = x)); [lia|].
intros [?|H]%elem_of_cons; [congruence|]. specialize (IH H). lia.
Qed.

Lemma duplicated_none seen l :
existsb id (duplicated_from seen l) = false ->
NoDup l /\ forall x, x ∈ l -> x ∉ seen.
Proof.
revert seen. induction l as [|y l IH]; intros seen; simpl.
- intros _. split; [constructor | now intros x ?%elem_of_nil].
- intros [Hy Hl]%orb_false_elim. unfold id in Hy.
  apply bool_decide_eq_false in Hy. destruct (IH _ Hl) as [Hnd Hseen].
  split.
  + constructor; [|exact Hnd]. intros Hin.
    apply (Hseen y Hin). now left.
  + intros x [->|Hx]%elem_of_cons; [exact Hy|].
    intros Hin. apply (Hseen x Hx). now right.
Qed.

Lemma occurrences_NoDup x l : NoDup l -> occurrences x l <= 1.
Proof.
induction 1 as [|y l Hy _ IH]; [unfold occurrences; simpl; lia|].
rewrite occurrences_cons. destruct (decide (y = x)) as [->|]; [|lia].
rewrite (occurrences_not_in _ _ Hy). lia.
Qed.

Lemma select_filter (D : string -> bool) l :
select (D <$> l) l = filter (fun x => D x = true) l.
Proof.
induction l as [|x l IH]; [reflexivity|]. rewrite fmap_cons, filter_cons.
simpl. destruct (D x) eqn:E.
- rewrite decide_True by reflexivity. now rewrite IH.
- rewrite decide_False by discriminate. exact IH.
Qed.

(** The masked assignment of the ranked identifiers, row by row. *)
Lemma assign_masked_ranked (D : string -> bool) l : forall seen pre,
(forall x, D x = true -> occurrences x seen = occurrences x pre) ->
assign_masked (D <$> l) l
  (zip_with (fun x n => x +:+ "-" +:+ of_nat n)
     (filter (fun x => D x = true) l)
     (cumcount_from seen (filter (fun x => D x = true) l))) =
imap (fun k x => if D x
                 then x +:+ "-" +:+ of_nat (occurrences x (pre ++ firstn k l)%list)
                 else x) l.
Proof.
induction l as [|x l IH]; intros seen pre Hseen; [reflexivity|].
rewrite fmap_cons, filter_cons, imap_cons. simpl firstn.
rewrite app_nil_r. destruct (D x) eqn:E.
- rewrite decide_True by reflexivity. simpl. rewrite (Hseen x E). f_equal.
  rewrite (IH (x :: seen) (pre ++ [x])%list).
  + apply imap_ext. intros k y _. simpl. now rewrite <- app_assoc.
  + intros y Hy. rewrite occurrences_cons, occurrences_app, (Hseen y Hy).
    rewrite occurrences_cons. unfold occurrences at 3. simpl. lia.
- rewrite decide_False by discriminate. simpl. f_equal.
  rewrite (IH seen (pre ++ [x])%list).
  + apply imap_ext. intros k y _. simpl. now rewrite <- app_assoc.
  + intros y Hy. rewrite occurrences_app, occurrences_cons, (Hseen y Hy).
    rewrite decide_False by congruence. unfold occurrences. simpl. lia.
Qed.

(** The uniqueness step, row by row. *)
Lemma uniquify_rows ids : uniquify ids = imap (suffixed ids) ids.
Proof.
unfold uniquify. destruct (existsb id (duplicated ids)) eqn:E.
- unfold duplicated_keep_false, cumcount.
  rewrite (select_filter (fun x => bool_decide (1 < occurrences x ids))).
  rewrite (assign_masked_ranked _ ids [] []) by reflexivity.
  apply imap_ext. intros k x _. reflexivity.
- destruct (duplicated_none _ _ E) as [Hnd _].
  rewrite <- (list_fmap_id ids) at 1. rewrite <- imap_const.
  apply imap_ext. intros k x _. unfold suffixed.
  rewrite bool_decide_eq_false_2; [reflexivity|].
  pose proof (occurrences_NoDup x ids Hnd). lia.
Qed.

(** The first row of a group of several gets the suffix [-0]. *)
Lemma uniquify_first ids i b :
ids !! i = Some b -> 1 < occurrences b ids -> b ∉ firstn i ids ->
uniquify ids !! i = Some (b +:+ "-0").
Proof.
intros Hi Hdup Hfirst. rewrite uniquify_rows, list_lookup_imap, Hi. simpl.
unfold suffixed. rewrite bool_decide_eq_true_2 by exact Hdup.
now rewrite (occurrences_not_in _ _ Hfirst).
Qed.

(** C1.  The uniqueness step can leave two rows with the same [__id]: a
    row that already carries [a-0] keeps it, and the first of two rows
    [a] is renamed to [a-0] as well.  The same through the whole table
    preparation, from a sheet with an [ID] column. *)
Theorem uniquify_collides :
uniquify ["a"; "a"; "a-0"] = ["a-0"; "a-1"; "a-0"] /\
~ NoDup (uniquify ["a"; "a"; "a-0"]) /\
final_ids [("ID", [Text "a"; Text "a"; Text "a-0"]);
           ("Status", [Text "open"; Text "done"; Text "open"])] =
  Some ["a-0"; "a-1"; "a-0"].
Proof.
split; [vm_compute; reflexivity|].
split; [by_evaluation | vm_compute; reflexivity].
Qed.

End Uniqueness.

(** ** The resolver on examples, and on the batches the job sends *)

Section ResolverOnBatches.
Import PyStr Server Sync.

(** The round trip of the specification: exact match first, then the
    request without its numeric suffix, then nothing. *)
Lemma resolve_by_identifier_witness :
let st := [[("__id", VStr "APP-1.0-ab12cd34ef")];
           [("__id", VStr "APP-1.0-ab12cd34ef-3")]] in
find_row_by_id st " APP-1.0-ab12cd34ef-3 " =
  Some (1, [("__id", VStr "APP-1.0-ab12cd34ef-3")]) /\
find_row_by_id st "APP-1.0-ab12cd34ef-7" =
  Some (0, [("__id", VStr "APP-1.0-ab12cd34ef")]) /\
get_row "nothing" st =
  (st, Raise (NotFound "nothing"
                ["APP-1.0-ab12cd34ef"; "APP-1.0-ab12cd34ef-3"])).
Proof.
cbv zeta.
set (st := [[("__id", VStr "APP-1.0-ab12cd34ef")];
            [("__id", VStr "APP-1.0-ab12cd34ef-3")]]).
split; [|split].
- destruct (resolve_by_identifier st " APP-1.0-ab12cd34ef-3 ") as (H & _).
  apply H. reflexivity.
- destruct (resolve_by_identifier st "APP-1.0-ab12cd34ef-7")
    as (_ & H & _).
  rewrite (H eq_refl "APP-1.0-ab12cd34ef").
  + reflexivity.
  + exists "7". repeat split. discriminate.
  + reflexivity.
  + discriminate.
- destruct (resolve_by_identifier st "nothing") as (_ & _ & H3 & H4 & _).
  apply H4, H3; [reflexivity|].
  intros b (ds & Hq & Hne & Hds). exfalso.
  pose proof (before_suffix_intro b ds Hne Hds) as H.
  rewrite <- Hq in H. discriminate H.
Defined.

(** C6 as stated fails where the base is blank or holds a line feed.  A
    row left with an empty identifier by a patch is the first row whose
    identifier equals the base of the request [-5], and is not returned;
    a row stored under an identifier with a line feed is not returned
    for that identifier followed by [-1]. *)
Lemma resolver_refuses_base :
let blank := run [Ingest bearer (BArray [Obj []]);
                  Patch "row-0" bearer
                    (BObject [("field", VStr "__id");
                              ("value", VStr EmptyString)])] in
let two_lines := String "a" (String "010" (String "b" EmptyString)) in
let st := run [Ingest bearer (BArray [Obj [("__id", VStr two_lines)]])] in
(blank = [[("__id", VStr EmptyString)]] /\
 numeric_suffix (normalize_id "-5") EmptyString /\
 first_with_id blank (normalize_id "-5") = None /\
 first_with_id blank EmptyString = Some (0, [("__id", VStr EmptyString)]) /\
 find_row_by_id blank "-5" = None) /\
(list_ids st = [two_lines] /\
 numeric_suffix (normalize_id (two_lines +:+ "-1")) two_lines /\
 first_with_id st (normalize_id (two_lines +:+ "-1")) = None /\
 first_with_id st two_lines = Some (0, [("__id", VStr two_lines)]) /\
 find_row_by_id st (two_lines +:+ "-1") = None).
Proof.
cbv zeta. split.
- repeat split; try reflexivity.
  exists "5". repeat split. discriminate.
- repeat split; try reflexivity.
  exists "1". repeat split. discriminate.
Qed.

Lemma rstrip_fixed s : last_is_space s = false -> rstrip s = s.
Proof.
induction s as [|c r IH]; [reflexivity|]. simpl.
destruct r as [|c' r'].
- intros ->. reflexivity.
- intros H. rewrite (IH H). simpl. now rewrite andb_false_r.
Qed.

Lemma lstrip_app_dash b t : lstrip (b +:+ "-" +:+ t) = lstrip b +:+ "-" +:+ t.
Proof.
induction b as [|c r IH]; [reflexivity|].
change (lstrip (String c (r +:+ "-" +:+ t)) = lstrip (String c r) +:+ "-" +:+ t).
simpl. destruct (isspace c); [exact IH | reflexivity].
Qed.

Lemma strip_dash_0 b : strip (b +:+ "-0") = lstrip b +:+ "-0".
Proof.
unfold strip. change (b +:+ "-0") with (b +:+ "-" +:+ "0").
rewrite (lstrip_app_dash b "0"). apply rstrip_fixed.
now rewrite last_is_space_app.
Qed.

Lemma length_app_string s t :
String.length (s +:+ t) = String.length s + String.length t.
Proof.
induction s as [|c r IH]; [reflexivity|].
change (S (String.length (r +:+ t)) = S (String.length r) + String.length t).
now rewrite IH.
Qed.

Lemma length_lstrip s : String.length (lstrip s) <= String.length s.
Proof.
induction s as [|c r IH]; simpl; [lia|].
destruct (isspace c); simpl; lia.
Qed.

Lemma length_rstrip s : String.length (rstrip s) <= String.length s.
Proof.
induction s as [|c r IH]; simpl; [lia|].
destruct (isspace c && is_empty (rstrip r)); simpl; lia.
Qed.

Lemma length_strip s : String.length (strip s) <= String.length s.
Proof.
unfold strip. pose proof (length_rstrip (lstrip s)).
pose proof (length_lstrip s). lia.
Qed.

(** Whatever a request resolves to is stored under the trimmed request
    or under the trimmed base of the trimmed request. *)
Lemma find_row_by_id_id st rid i r :
find_row_by_id st rid = Some (i, r) ->
_row_id r = strip rid \/
exists b, numeric_suffix (strip rid) b /\ _row_id r = strip b.
Proof.
unfold find_row_by_id, normalize_id, first_with_id.
destruct (list_find _ st) as [hit|] eqn:E1.
- intros [= ->]. apply list_find_Some in E1 as (_ & Hid & _). now left.
- destruct (strip_suffix_num _) as [base|] eqn:E; [|discriminate].
  destruct (is_empty base); [discriminate|]. intros E2.
  destruct (strip_suffix_num_elim _ _ E) as (b & Hsuf & ->).
  apply list_find_Some in E2 as (_ & Hid & _). right. eauto.
Qed.

Lemma posted_cons s ids r others :
posted (s :: ids) (r :: others) =
Obj (dict_set "__id" (VStr s) r) :: posted ids others.
Proof. reflexivity. Qed.

(** The rows stored for a posted batch. *)
Lemma attach_from_posted ids : forall others k i s,
ids !! i = Some s -> i < length others ->
exists rows r o,
  attach_from k (posted ids others) = Ok rows /\
  rows !! i = Some r /\ others !! i = Some o /\
  r = dict_set "__id"
        (VStr (id_or_fallback (k + i) (dict_set "__id" (VStr s) o)))
        (dict_set "__id" (VStr s) o).
Proof.
induction ids as [|x ids IH]; intros others k i s Hi Hlen;
  [discriminate|].
destruct others as [|o others]; [simpl in Hlen; lia|].
rewrite posted_cons. simpl.
destruct i as [|i].
- injection Hi as ->.
  assert (Hobj : Forall is_object (posted ids others)).
  { clear. revert others. induction ids as [|y ids IH]; intros [|o others];
      try constructor; [exact I | apply IH]. }
  destruct (attach_from_objects (S k) _ Hobj) as (rows & -> & _).
  eexists _, _, o. split; [reflexivity|]. split; [reflexivity|].
  split; [reflexivity|]. now rewrite Nat.add_0_r.
- simpl in Hi, Hlen.
  destruct (IH others (S k) i s Hi ltac:(lia))
    as (rows & r & o' & -> & Hr & Ho & ->).
  eexists _, _, o'. split; [reflexivity|]. split; [exact Hr|].
  split; [exact Ho|]. now rewrite Nat.add_succ_r.
Qed.

(** C3 as the program has it.  In a batch where the identifier [b]
    occurs on several rows, the first of them (row [i]) leaves the
    uniqueness step as [b-0] and is stored under the trimmed [b-0]; the
    request [b-0] resolves to it by exact match when no earlier row is
    stored under the same identifier; and the un-suffixed request [b]
    never resolves to a row stored under [b-0]: the fallback strips the
    suffix of the request, not of the stored identifiers. *)
Theorem first_of_group_resolves (ids : list string) (others : list row)
  (st0 : store) (i : nat) (b : string) :
length others = length ids ->
ids !! i = Some b -> 1 < occurrences b ids -> b ∉ firstn i ids ->
let st := fst (receive_releases bearer
                 (BArray (posted (uniquify ids) others)) st0) in
let q := strip (b +:+ "-0") in
uniquify ids !! i = Some (b +:+ "-0") /\
exists r, st !! i = Some r /\ _row_id r = q /\
  ((forall j r', st !! j = Some r' -> j < i -> _row_id r' <> q) ->
   find_row_by_id st (b +:+ "-0") = Some (i, r)) /\
  (forall j r', find_row_by_id st b = Some (j, r') -> _row_id r' <> q).
Proof.
intros Hlen Hi Hdup Hfirst. cbv zeta.
pose proof (uniquify_first ids i b Hi Hdup Hfirst) as Hu.
split; [exact Hu|].
assert (Hi' : i < length others).
{ rewrite Hlen. eapply lookup_lt_Some; eauto. }
destruct (attach_from_posted _ others 0 i _ Hu Hi')
  as (rows & r & o & Hrows & Hr & _ & Hrow).
rewrite receive_releases_array. unfold _attach_ids. rewrite Hrows. simpl.
assert (Hq : strip (b +:+ "-0") <> EmptyString).
{ rewrite strip_dash_0. destruct (lstrip b); discriminate. }
assert (Hid : _row_id r = strip (b +:+ "-0")).
{ rewrite Hrow, row_id_annotated. unfold id_or_fallback.
  rewrite (row_id_of_id_field _ (b +:+ "-0"));
    [|apply lookup_key_set_same | destruct b; discriminate].
  apply is_empty_false in Hq. now rewrite Hq. }
exists r. split; [exact Hr|]. split; [exact Hid|]. split.
- intros Hbefore. unfold find_row_by_id, normalize_id, first_with_id.
  replace (list_find _ rows) with (Some (i, r)); [reflexivity|].
  symmetry. apply list_find_Some. auto.
- intros j r' Hfind Heq.
  assert (Hlong : String.length (strip b) < String.length (_row_id r')).
  { rewrite Heq, strip_dash_0, length_app_string. simpl.
    pose proof (length_rstrip (lstrip b)). unfold strip. lia. }
  destruct (find_row_by_id_id _ _ _ _ Hfind) as [E|(b' & (ds & Eq & _) & E)].
  + rewrite E in Hlong. lia.
  + rewrite E in Hlong. pose proof (length_strip b') as Hb'.
    rewrite Eq, !length_app_string in Hlong. lia.
Qed.

Lemma first_of_group_resolves_witness :
let ids := ["A-1-b93577a2bc"; "B-2-0000000000"; "A-1-b93577a2bc"] in
let others := [[("Application", VStr "A")]; [("Application", VStr "B")];
               [("Application", VStr "A")]] in
let st := fst (receive_releases bearer
                 (BArray (posted (uniquify ids) others)) []) in
list_ids st = ["A-1-b93577a2bc-0"; "B-2-0000000000"; "A-1-b93577a2bc-1"] /\
uniquify ids !! 0 = Some "A-1-b93577a2bc-0" /\
find_row_by_id st "A-1-b93577a2bc-0" =
  Some (0, [("Application", VStr "A"); ("__id", VStr "A-1-b93577a2bc-0")]) /\
find_row_by_id st "A-1-b93577a2bc" = None.
Proof.
cbv zeta. split; [reflexivity|].
destruct (first_of_group_resolves
            ["A-1-b93577a2bc"; "B-2-0000000000"; "A-1-b93577a2bc"]
            [[("Application", VStr "A")]; [("Application", VStr "B")];
             [("Application", VStr "A")]] [] 0 "A-1-b93577a2bc")
  as (Hu & r & Hr & Hid & Hexact & _).
- reflexivity.
- reflexivity.
- by_evaluation.
- apply not_elem_of_nil.
- split; [exact Hu|]. split; [|reflexivity].
  transitivity (Some (0, r)); [apply Hexact; intros j r' _ Hj; lia|].
  vm_compute in Hr. congruence.
Defined.

(** C3 as stated fails: two rows with the identifier [a] are stored as
    [a-0] and [a-1], and the un-suffixed request [a] finds neither. *)
Lemma base_form_not_found :
let st := fst (receive_releases bearer
                 (BArray (posted (uniquify ["a"; "a"]) [[]; []])) []) in
uniquify ["a"; "a"] = ["a-0"; "a-1"] /\
st = [[("__id", VStr "a-0")]; [("__id", VStr "a-1")]] /\
find_row_by_id st "a" = None /\
get_row "a" st = (st, Raise (NotFound "a" ["a-0"; "a-1"])).
Proof. cbv zeta. repeat split; vm_compute; reflexivity. Qed.

End ResolverOnBatches.

(** ** Column reconciliation *)

Section Reconciliation.
Import PyStr Sync.

Lemma lower_to_orig_Some cols k c :
lower_to_orig cols k = Some c -> c ∈ cols /\ lower_key c = k.
Proof.
induction cols as [|x cols IH]; [discriminate|]. simpl.
destruct (lower_to_orig cols k) as [c'|].
- intros [= ->]. destruct (IH eq_refl) as [Hin Hk].
  split; [now right | exact Hk].
- destruct (decide (lower_key x = k)); [|discriminate].
  intros [= ->]. split; [now left | assumption].
Qed.

Lemma lower_to_orig_None cols k :
lower_to_orig cols k = None <-> forall c, c ∈ cols -> lower_key c <> k.
Proof.
induction cols as [|x cols IH]; simpl.
- split; [now intros _ c ?%elem_of_nil | reflexivity].
- destruct (lower_to_orig cols k) as [c'|] eqn:E.
  + split; [discriminate|]. intros H.
    destruct (lower_to_orig_Some _ _ _ E) as [Hin Hk].
    destruct (H c'); [now right | exact Hk].
  + destruct (decide (lower_key x = k)) as [Hx|Hx].
    * split; [discriminate|]. intros H. destruct (H x); [now left | exact Hx].
    * split; [|reflexivity]. intros _ c [->|Hc]%elem_of_cons; [exact Hx|].
      now apply IH.
Qed.

Lemma named_key cols k c :
k <> EmptyString -> lower_to_orig cols k = Some c -> named (Some c) = Some c.
Proof.
intros Hk H. destruct (lower_to_orig_Some _ _ _ H) as [_ Hc].
destruct c; [|reflexivity]. now subst k.
Qed.

Lemma column_set_same name data df : column (set_column name data df) name = data.
Proof.
induction df as [|[n old] df IH]; simpl.
- now rewrite decide_True.
- destruct (decide (n = name)) as [->|Hn]; simpl.
  + now rewrite decide_True.
  + now rewrite decide_False.
Qed.

Lemma column_set_other name data df other :
other <> name -> column (set_column name data df) other = column df other.
Proof.
intros Hne. induction df as [|[n old] df IH]; simpl.
- now rewrite decide_False by congruence.
- destruct (decide (n = name)) as [->|Hn]; simpl.
  + now rewrite !decide_False by congruence.
  + now rewrite IH.
Qed.

Lemma columns_cons n (d : list cell) df : columns ((n, d) :: df) = n :: columns df.
Proof. reflexivity. Qed.

Lemma columns_set_in name data df :
name ∈ columns df -> columns (set_column name data df) = columns df.
Proof.
induction df as [|[n old] df IH]; [now intros ?%elem_of_nil|].
cbn [set_column]. destruct (decide (n = name)) as [->|Hn]; [reflexivity|].
rewrite !columns_cons. intros [?|Hin]%elem_of_cons; [congruence|].
now rewrite IH.
Qed.

Lemma columns_set_fresh name data df :
name ∉ columns df -> columns (set_column name data df) = (columns df ++ [name])%list.
Proof.
induction df as [|[n old] df IH]; [reflexivity|].
cbn [set_column]. rewrite columns_cons.
intros [Hn Hdf]%not_elem_of_cons.
rewrite decide_False by congruence. rewrite columns_cons, IH by exact Hdf.
reflexivity.
Qed.

Lemma index_of_lookup name cols :
name ∈ cols -> exists p, index_of name cols = Some p /\ cols !! p = Some name.
Proof.
induction cols as [|c cols IH]; [now intros ?%elem_of_nil|]. simpl.
destruct (decide (c = name)) as [->|Hc].
- intros _. now exists 0.
- intros [?|Hin]%elem_of_cons; [congruence|].
  destruct (IH Hin) as (p & -> & Hp). now exists (S p).
Qed.

Lemma columns_insert pos name data df :
columns (insert_column pos name data df) =
(firstn pos (columns df) ++ name :: skipn pos (columns df))%list.
Proof.
unfold columns, insert_column.
now rewrite fmap_app, fmap_cons, fmap_take, fmap_drop.
Qed.

Lemma column_insert_other pos name data df other :
other <> name -> column (insert_column pos name data df) other = column df other.
Proof.
intros Hne. unfold insert_column. revert pos.
induction df as [|[n old] df IH]; intros [|pos]; simpl;
  try (now rewrite decide_False by congruence).
destruct (decide (n = other)); [reflexivity | apply IH].
Qed.

Lemma column_insert_fresh pos name data df :
name ∉ columns df -> column (insert_column pos name data df) name = data.
Proof.
unfold insert_column. revert pos.
induction df as [|[n old] df IH]; intros [|pos] Hfresh; simpl;
  try (now rewrite decide_True).
rewrite columns_cons in Hfresh. apply not_elem_of_cons in Hfresh as [Hn Hdf].
rewrite decide_False by congruence. now apply IH.
Qed.

(** C8.  Column reconciliation, on a frame with distinct column names.
    A column is the Category (the Scope) column when its name, trimmed
    and lower-cased, is [category] ([scope]); of several the last one.
    (1) With a Category and a Scope column no column is added, removed or
    moved, every other column keeps its cells, and row by row the
    Category cell that is missing or the empty string is replaced by the
    Scope cell of the row, while a Category cell that is a non-empty
    string or another value is kept.  (2) With a Scope column and no
    Category column, a column named Category is inserted right after
    Scope, equal to Scope, and every other column keeps its place among
    the others and its cells.  (3) Without a Scope column the frame is
    unchanged. *)
Theorem reconcile_columns (df : frame) :
NoDup (columns df) ->
let cols := columns df in
(forall k c, lower_to_orig cols k = Some c ->
   (c ∈ cols) /\ PyStr.lower (PyStr.strip c) = k) /\
(forall k, lower_to_orig cols k = None <->
   forall c, c ∈ cols -> PyStr.lower (PyStr.strip c) <> k) /\
(forall cat sc,
   lower_to_orig cols "category" = Some cat ->
   lower_to_orig cols "scope" = Some sc ->
   columns (reconcile df) = cols /\
   (forall other, other <> cat ->
      column (reconcile df) other = column df other) /\
   (forall i c s,
      column df cat !! i = Some c -> column df sc !! i = Some s ->
      (forall r, c = Missing r ->
         column (reconcile df) cat !! i = Some s) /\
      (c = Text EmptyString ->
         column (reconcile df) cat !! i = Some s) /\
      (forall t, c = Text t -> t <> EmptyString ->
         column (reconcile df) cat !! i = Some c) /\
      (forall a b, c = Scalar a b -> a <> EmptyString ->
         column (reconcile df) cat !! i = Some c)) /\
   (length (column df cat) = length (column df sc) ->
    length (column (reconcile df) cat) = length (column df cat))) /\
(forall sc,
   lower_to_orig cols "category" = None ->
   lower_to_orig cols "scope" = Some sc ->
   exists p, cols !! p = Some sc /\
     columns (reconcile df) =
       (firstn (S p) cols ++ "Category" :: skipn (S p) cols)%list /\
     column (reconcile df) "Category" = column df sc /\
     (forall other, other <> "Category" ->
        column (reconcile df) other = column df other)) /\
(lower_to_orig cols "scope" = None -> reconcile df = df).
Proof.
intros Hnd. cbv zeta. split; [|split; [|split; [|split]]].
- intros k c. apply lower_to_orig_Some.
- intros k. apply lower_to_orig_None.
- intros cat sc Hcat Hsc. unfold reconcile.
  rewrite Hcat, Hsc, (named_key _ "category" _ ltac:(discriminate) Hcat),
    (named_key _ "scope" _ ltac:(discriminate) Hsc).
  destruct (lower_to_orig_Some _ _ _ Hcat) as [Hin _].
  split; [now apply columns_set_in|]. split; [|split].
  + intros other Hne. now apply column_set_other.
  + intros i c s Hc Hs. rewrite column_set_same. unfold fill_from.
    rewrite lookup_zip_with, Hc, Hs. simpl. unfold populated.
    split; [|split; [|split]].
    * now intros r ->.
    * now intros ->.
    * intros t -> Ht. simpl. apply is_empty_false in Ht. now rewrite Ht.
    * intros a b -> Ha. simpl. apply is_empty_false in Ha. now rewrite Ha.
  + intros Hlen. rewrite column_set_same. unfold fill_from.
    rewrite length_zip_with. lia.
- intros sc Hcat Hsc. unfold reconcile.
  rewrite Hcat, Hsc, (named_key _ "scope" _ ltac:(discriminate) Hsc). simpl.
  destruct (lower_to_orig_Some _ _ _ Hsc) as [Hin _].
  destruct (index_of_lookup _ _ Hin) as (p & -> & Hp).
  exists p. split; [exact Hp|]. rewrite Nat.add_1_r.
  split; [apply columns_insert|]. split.
  + apply column_insert_fresh. intros HC.
    apply (proj1 (lower_to_orig_None _ _) Hcat _ HC). reflexivity.
  + intros other Hne. now apply column_insert_other.
- intros Hsc. unfold reconcile. rewrite Hsc. simpl.
  now destruct (named (lower_to_orig (columns df) "category")).
Qed.

(** The two examples of the specification, and a sheet whose columns are
    named [category ] and [SCOPE], with an empty, a missing and two
    populated Category cells. *)
Lemma reconcile_columns_witness :
let df1 := [("Scope", [Text "A"; Text "B"]); ("Status", [Text "s"; NaN])] in
let df2 := [("Category", [Text EmptyString; Text "X"]);
            ("Scope", [Text "A"; Text "B"])] in
let df3 := [("category ", [Text EmptyString; NaN; Text "X"; Scalar "3" "3"]);
            ("Status", [Text "s"; Text "t"; Text "u"; Text "v"]);
            ("SCOPE", [Text "A"; Text "B"; Text "C"; Text "D"])] in
NoDup (columns df1) /\ NoDup (columns df2) /\ NoDup (columns df3) /\
columns (reconcile df1) = ["Scope"; "Category"; "Status"] /\
column (reconcile df1) "Category" = [Text "A"; Text "B"] /\
columns (reconcile df2) = ["Category"; "Scope"] /\
column (reconcile df2) "Category" !! 0 = Some (Text "A") /\
column (reconcile df2) "Category" !! 1 = Some (Text "X") /\
columns (reconcile df3) = ["category "; "Status"; "SCOPE"] /\
column (reconcile df3) "category " !! 0 = Some (Text "A") /\
column (reconcile df3) "category " !! 1 = Some (Text "B") /\
column (reconcile df3) "category " !! 2 = Some (Text "X") /\
column (reconcile df3) "category " !! 3 = Some (Scalar "3" "3").
Proof.
cbv zeta.
assert (H1 : NoDup (columns [("Scope", [Text "A"; Text "B"]);
                             ("Status", [Text "s"; NaN])]))
  by by_evaluation.
assert (H2 : NoDup (columns [("Category", [Text EmptyString; Text "X"]);
                             ("Scope", [Text "A"; Text "B"])]))
  by by_evaluation.
assert (H3 : NoDup (columns
  [("category ", [Text EmptyString; NaN; Text "X"; Scalar "3" "3"]);
   ("Status", [Text "s"; Text "t"; Text "u"; Text "v"]);
   ("SCOPE", [Text "A"; Text "B"; Text "C"; Text "D"])]))
  by by_evaluation.
split; [exact H1|]. split; [exact H2|]. split; [exact H3|].
destruct (reconcile_columns _ H1) as (_ & _ & _ & Hins & _).
destruct (Hins "Scope" eq_refl eq_refl) as (p & Hp & Hcols & Hcat & _).
destruct (reconcile_columns _ H2) as (_ & _ & Hfill & _).
destruct (Hfill "Category" "Scope" eq_refl eq_refl) as (Hcols2 & _ & Hrow & _).
destruct (reconcile_columns _ H3) as (_ & _ & Hfill3 & _).
destruct (Hfill3 "category " "SCOPE" eq_refl eq_refl) as (Hcols3 & _ & Hrow3 & _).
split; [rewrite Hcols; destruct p as [|[|p]]; [reflexivity|discriminate..]|].
split; [exact Hcat|]. split; [exact Hcols2|].
destruct (Hrow 0 (Text EmptyString) (Text "A") eq_refl eq_refl)
  as (_ & Hempty & _).
destruct (Hrow 1 (Text "X") (Text "B") eq_refl eq_refl)
  as (_ & _ & Hkept & _).
destruct (Hrow3 0 (Text EmptyString) (Text "A") eq_refl eq_refl)
  as (_ & Hempty3 & _).
destruct (Hrow3 1 NaN (Text "B") eq_refl eq_refl) as (Hmissing3 & _).
destruct (Hrow3 2 (Text "X") (Text "C") eq_refl eq_refl)
  as (_ & _ & Hkept3 & _).
destruct (Hrow3 3 (Scalar "3" "3") (Text "D") eq_refl eq_refl)
  as (_ & _ & _ & Hscalar3).
split; [exact (Hempty eq_refl)|].
split; [apply (Hkept "X"); [reflexivity | discriminate]|].
split; [exact Hcols3|].
split; [exact (Hempty3 eq_refl)|].
split; [exact (Hmissing3 "nan" eq_refl)|].
split; [apply (Hkept3 "X"); [reflexivity | discriminate]|].
apply (Hscalar3 "3" "3"); [reflexivity | discriminate].
Defined.

End Reconciliation.

(** ** Composite identifiers *)

Section CompositeIdentifier.
Import PyStr Sync.

(** The digest on the standard test vectors and on a two-byte character. *)
Example sha1_abc :
Sha1.hexdigest (Sha1.encode_utf8 "abc") =
  "a9993e364706816aba3e25717850c26c9cd0d89d".
Proof. vm_compute. reflexivity. Qed.

Example sha1_two_blocks :
Sha1.hexdigest
  (Sha1.encode_utf8 "abcdbcdecdefdefgefghfghighijhijkijkljklmklmnlmnomnopnopq") =
  "84983e441c3bd26ebaae4aa1f95129e5e54670f1".
Proof. vm_compute. reflexivity. Qed.

Example sha1_e_acute :
Sha1.hexdigest (Sha1.encode_utf8 (String (ascii_of_nat 233) "t")) =
  "17e0cb38cc03ac1638c3abbe1d115d71528fe44c".
Proof. vm_compute. reflexivity. Qed.

Lemma hex_digit_is_hex n : Sha1.is_hex (Sha1.hex_digit n) = true.
Proof.
unfold Sha1.hex_digit. generalize (Z.to_nat n) as k. intros k.
do 16 (destruct k as [|k]; [reflexivity|]). destruct k; reflexivity.
Qed.

Lemma hexdigest_length msg : String.length (Sha1.hexdigest msg) = 40.
Proof.
unfold Sha1.hexdigest. destruct (Sha1.digest msg) as [[[[h0 h1] h2] h3] h4].
reflexivity.
Qed.

Lemma hexdigest_is_hex msg : all_chars Sha1.is_hex (Sha1.hexdigest msg) = true.
Proof.
unfold Sha1.hexdigest. destruct (Sha1.digest msg) as [[[[h0 h1] h2] h3] h4].
unfold Sha1.hex32. cbn [all_chars]. rewrite !hex_digit_is_hex. reflexivity.
Qed.

Lemma take_length n s : n <= String.length s -> String.length (take n s) = n.
Proof.
revert s. induction n as [|n IH]; intros [|c r]; simpl; try lia.
intros H. rewrite IH; lia.
Qed.

Lemma take_all_chars p n s : all_chars p s = true -> all_chars p (take n s) = true.
Proof.
revert s. induction n as [|n IH]; intros [|c r]; simpl; try reflexivity.
intros [-> Hr]%andb_prop. now rewrite IH.
Qed.

Lemma fingerprint_shape parts :
String.length (fingerprint parts) = 10 /\
all_chars Sha1.is_hex (fingerprint parts) = true.
Proof.
unfold fingerprint. split.
- apply take_length. rewrite hexdigest_length. lia.
- apply take_all_chars, hexdigest_is_hex.
Qed.

Lemma no_candidate_no_id cols :
find_candidate (lower_to_orig cols) candidate_names = None -> "__id" ∉ cols.
Proof.
unfold candidate_names. simpl.
destruct (lower_to_orig cols "__id") eqn:E; [discriminate|]. intros _ Hin.
apply (proj1 (lower_to_orig_None _ _) E _ Hin). reflexivity.
Qed.

Lemma series_get_record df col i d :
col ∈ columns df -> series_get (record df i) col d = cell_at df col i.
Proof.
unfold cell_at, record. induction df as [|[n data] df IH];
  [now intros ?%elem_of_nil|].
rewrite columns_cons, fmap_cons. simpl.
destruct (decide (n = col)) as [->|Hne]; [reflexivity|].
intros [?|Hin]%elem_of_cons; [congruence | exact (IH Hin)].
Qed.

Lemma part_text_at df key i :
key <> EmptyString ->
part (lower_to_orig (columns df) key) (record df i) = text_at df key i.
Proof.
intros Hkey. unfold part, text_at.
destruct (lower_to_orig (columns df) key) as [col|] eqn:E; [|reflexivity].
rewrite (named_key _ key _ Hkey E).
destruct (lower_to_orig_Some _ _ _ E) as [Hin _].
now rewrite series_get_record.
Qed.

Lemma part_category_or_scope df i :
part (name_or (lower_to_orig (columns df) "category")
        (lower_to_orig (columns df) "scope")) (record df i)
= category_or_scope_at df i.
Proof.
unfold category_or_scope_at, name_or.
destruct (lower_to_orig (columns df) "category") as [col|] eqn:E.
- rewrite (named_key _ "category" _ ltac:(discriminate) E).
  unfold part. rewrite (named_key _ "category" _ ltac:(discriminate) E).
  destruct (lower_to_orig_Some _ _ _ E) as [Hin _].
  now rewrite series_get_record.
- simpl. now apply part_text_at.
Qed.

Lemma or_else_decide s dflt :
or_else s dflt = if decide (s = EmptyString) then dflt else s.
Proof. now destruct s. Qed.

(** The identifier step (B) computes for row [i] is the composite
    identifier of the three texts of the row. *)
Lemma make_id_composite df i :
make_id (lower_to_orig (columns df) "application")
  (lower_to_orig (columns df) "version")
  (name_or (lower_to_orig (columns df) "category")
     (lower_to_orig (columns df) "scope")) (record df i)
= composite_of (text_at df "application" i) (text_at df "version" i)
    (category_or_scope_at df i).
Proof.
unfold make_id.
rewrite !part_text_at by discriminate. rewrite part_category_or_scope.
rewrite !or_else_decide. reflexivity.
Qed.

Lemma composite_ids df :
find_candidate (lower_to_orig (columns df)) candidate_names = None ->
column (assign_id df) "__id" =
Text <$> ((fun i => composite_of (text_at df "application" i)
                      (text_at df "version" i) (category_or_scope_at df i))
          <$> seq 0 (nrows df)).
Proof.
intros Hcand. unfold assign_id. rewrite Hcand. simpl named. cbv iota.
rewrite bool_decide_eq_false_2 by now apply no_candidate_no_id.
rewrite column_set_same. f_equal. unfold records.
rewrite <- list_fmap_compose. apply list_fmap_ext.
intros k i _. apply make_id_composite.
Qed.

Lemma id_strings_of_texts df ids :
column df "__id" = Text <$> ids -> id_strings df = Some ids.
Proof.
intros Hcol. unfold id_strings. rewrite Hcol. apply mapM_Some.
apply Forall2_fmap_l, Forall2_same_length_lookup_2; [reflexivity|].
intros i x y Hx Hy. rewrite Hx in Hy. now injection Hy as ->.
Qed.

(** C9.  On a frame without identifier-like column, step (B) fills
    [__id], one string per row in row order, with the composite
    identifier of the row: the Application text of the row, or [x] when
    that is empty, a hyphen, the Version text, or [na] when that is
    empty, a hyphen, and the fingerprint.  The fingerprint is 10
    hexadecimal characters: the head of the SHA-1 digest of the trimmed
    Application, Version and Category texts joined by a bar, the Scope
    text standing in where there is no Category column and the empty
    string for a column the frame does not have.  The identifiers are a
    function of these three texts of each row: two frames that agree on
    them, row by row, get the same identifiers, whatever their other
    columns. *)
Theorem composite_identifier (df : frame) :
find_candidate (lower_to_orig (columns df)) candidate_names = None ->
let ids :=
  (fun i => composite_of (text_at df "application" i)
              (text_at df "version" i) (category_or_scope_at df i))
  <$> seq 0 (nrows df) in
column (assign_id df) "__id" = Text <$> ids /\
id_strings (assign_id df) = Some ids /\
length ids = nrows df /\
(forall a v c, exists h,
   composite_of a v c =
     (if decide (a = EmptyString) then "x" else a) +:+ "-" +:+
     (if decide (v = EmptyString) then "na" else v) +:+ "-" +:+ h /\
   String.length h = 10 /\ all_chars Sha1.is_hex h = true) /\
(forall df',
   find_candidate (lower_to_orig (columns df')) candidate_names = None ->
   nrows df' = nrows df ->
   (forall i, i < nrows df ->
      text_at df' "application" i = text_at df "application" i /\
      text_at df' "version" i = text_at df "version" i /\
      category_or_scope_at df' i = category_or_scope_at df i) ->
   id_strings (assign_id df') = id_strings (assign_id df)).
Proof.
intros Hcand. cbv zeta. pose proof (composite_ids df Hcand) as Hcol.
split; [exact Hcol|]. split; [now apply id_strings_of_texts|].
split; [now rewrite length_fmap, length_seq|]. split.
- intros a v c. eexists. split; [reflexivity|].
  apply (fingerprint_shape [a; v; c]).
- intros df' Hcand' Hrows Hsame.
  rewrite (id_strings_of_texts _ _ (composite_ids df' Hcand')),
    (id_strings_of_texts _ _ Hcol), Hrows.
  f_equal. apply list_fmap_ext. intros k i Hi.
  apply lookup_seq in Hi as [-> Hlt].
  destruct (Hsame k Hlt) as (E1 & E2 & E3). cbv beta.
  change (0 + k) with k. now rewrite E1, E2, E3.
Qed.

(** A sheet with an empty Application cell, no Version column and a
    Scope column in place of Category; the scenario of the
    specification, two rows alike that the uniqueness step tells apart;
    and a sheet of numbers, whose integer reads [1.0] in the row. *)
Lemma composite_identifier_witness :
let df := [("Application", [Text EmptyString; Text " A "]);
           ("Scope", [Text "S"; NaN])] in
let twice := [("Application", [Text "A"; Text "A"]);
              ("Version", [Scalar "1" "1"; Scalar "1" "1"])] in
let numbers := [("Application", [Scalar "1" "1.0"]);
                ("Version", [Scalar "1.5" "1.5"])] in
find_candidate (lower_to_orig (columns df)) candidate_names = None /\
id_strings (assign_id df) = Some ["x-na-542f77c202"; " A -na-cbc4afe1a4"] /\
id_strings (assign_id twice) = Some ["A-1-b93577a2bc"; "A-1-b93577a2bc"] /\
final_ids twice = Some ["A-1-b93577a2bc-0"; "A-1-b93577a2bc-1"] /\
id_strings (assign_id numbers) = Some ["1.0-1.5-332490eccc"].
Proof.
cbv zeta. split; [reflexivity|].
destruct (composite_identifier
            [("Application", [Text EmptyString; Text " A "]);
             ("Scope", [Text "S"; NaN])] eq_refl) as (_ & -> & _).
destruct (composite_identifier
            [("Application", [Text "A"; Text "A"]);
             ("Version", [Scalar "1" "1"; Scalar "1" "1"])] eq_refl)
  as (_ & -> & _).
destruct (composite_identifier
            [("Application", [Scalar "1" "1.0"]);
             ("Version", [Scalar "1.5" "1.5"])] eq_refl) as (_ & -> & _).
repeat split; vm_compute; reflexivity.
Defined.

End CompositeIdentifier.

(** * Further properties of the serving process *)

Section StoreOperations.
Import PyStr Server.

Lemma rebuild_ids_authorized st :
rebuild_ids bearer st =
(imap (fun i r => dict_set "__id" (VStr (id_or_fallback i r)) r) st,
 Ok (length st)).
Proof.
unfold rebuild_ids, bind, _auth_or_401, bearer.
rewrite decide_True by reflexivity. simpl. now rewrite length_imap.
Qed.

Lemma rebuild_ids_unauthorized a st :
a <> bearer -> rebuild_ids a st = (st, Raise Unauthorized).
Proof.
intros Ha. unfold rebuild_ids, bind, _auth_or_401.
now rewrite decide_False by exact Ha.
Qed.

Lemma id_or_fallback_keeps i r :
_row_id r <> EmptyString -> id_or_fallback i r = _row_id r.
Proof.
intros H%is_empty_false. unfold id_or_fallback. now rewrite H.
Qed.

Lemma id_or_fallback_row i r :
_row_id r = EmptyString -> id_or_fallback i r = "row-" +:+ of_nat i.
Proof. intros H. unfold id_or_fallback. now rewrite H. Qed.

(** X1.  Rebuilding identifiers twice is rebuilding them once, for every
    store and every header.  A rebuild keeps the number of rows, every
    field of a row other than [__id], and the probed identifier of every
    row that has one; a row without any gets [row-<index>]. *)
Theorem rebuild_ids_idempotent (a : option string) (st : store) :
let once := fst (rebuild_ids a st) in
fst (rebuild_ids a once) = once /\
length once = length st /\
(a = bearer -> forall i r, st !! i = Some r ->
   exists r', once !! i = Some r' /\
     (forall k, k <> "__id" -> lookup_key k r' = lookup_key k r) /\
     id_field r' = Some (VStr (_row_id r')) /\
     (_row_id r <> EmptyString -> _row_id r' = _row_id r) /\
     (_row_id r = EmptyString -> _row_id r' = "row-" +:+ of_nat i)).
Proof.
cbv zeta. destruct (decide (a = bearer)) as [->|Ha].
- split; [|rewrite rebuild_ids_authorized; cbn [fst]; split].
  + apply rebuild_ids_store. rewrite rebuild_ids_authorized. cbn [fst].
    rewrite Forall_fmap. apply Forall_lookup.
    intros i r' Hi. apply list_lookup_imap_Some in Hi as (r & _ & ->).
    apply good_id_annotated.
  + apply length_imap.
  + intros _ i r Hi. eexists. split.
    { rewrite list_lookup_imap, Hi. reflexivity. }
    rewrite row_id_annotated. split; [|split; [|split]].
    * intros k Hk. apply lookup_key_set_other. congruence.
    * apply lookup_key_set_same.
    * apply id_or_fallback_keeps.
    * apply id_or_fallback_row.
- rewrite !rebuild_ids_unauthorized by exact Ha. cbn [fst].
  rewrite ?rebuild_ids_unauthorized by exact Ha. easy.
Qed.

Lemma rebuild_ids_idempotent_witness :
let st := [[("Name", VStr "n")]; [("ExternalID", VStr " K-1 "); ("__id", VNone)]] in
fst (rebuild_ids bearer st) =
  [[("Name", VStr "n"); ("__id", VStr "row-0")];
   [("ExternalID", VStr " K-1 "); ("__id", VStr "K-1")]] /\
fst (rebuild_ids bearer (fst (rebuild_ids bearer st))) = fst (rebuild_ids bearer st).
Proof.
cbv zeta. split; [reflexivity|].
apply (rebuild_ids_idempotent bearer
         [[("Name", VStr "n")]; [("ExternalID", VStr " K-1 "); ("__id", VNone)]]).
Defined.

Lemma find_own_id (st : store) (i : nat) (r : row) :
st !! i = Some r ->
exists j r',
  find_row_by_id st (_row_id r) = Some (j, r') /\
  j <= i /\ _row_id r' = _row_id r /\
  (NoDup (list_ids st) -> j = i /\ r' = r).
Proof.
intros Hi. unfold find_row_by_id.
assert (Hn : normalize_id (_row_id r) = _row_id r) by apply strip_idem.
rewrite Hn. unfold first_with_id.
destruct (list_find (fun x => _row_id x = _row_id r) st) as [[j r']|] eqn:E.
- apply list_find_Some in E as (Hj & Hid & Hmin).
  exists j, r'. split; [reflexivity|].
  assert (Hle : j <= i).
  { destruct (decide (j <= i)) as [|Hgt]; [assumption|].
    destruct (Hmin i r Hi); [lia | reflexivity]. }
  split; [exact Hle|]. split; [exact Hid|]. intros Hnd.
  assert (j = i) as ->.
  { eapply NoDup_lookup; [exact Hnd| |]; unfold list_ids;
      rewrite list_lookup_fmap; [rewrite Hj | rewrite Hi]; simpl;
      [now rewrite Hid | reflexivity]. }
  split; [reflexivity | congruence].
- apply list_find_None in E. rewrite Forall_forall in E.
  destruct (E r); [|reflexivity].
  eapply list_elem_of_lookup_2; eauto.
Qed.


(** X2.  Every stored row answers to its own identifier: requesting the
    probed identifier of the row at position [i] finds, by exact match,
    the first row stored under that identifier, at a position not after
    [i]; when the identifiers of the store are pairwise distinct it is
    the row itself. *)
Theorem stored_id_resolves (st : store) (i : nat) (r : row) :
st !! i = Some r ->
exists j r',
  find_row_by_id st (_row_id r) = Some (j, r') /\
  j <= i /\ _row_id r' = _row_id r /\
  (NoDup (list_ids st) -> j = i /\ r' = r).
Proof. apply find_own_id. Qed.

Lemma stored_id_resolves_witness :
let st := [[("ID", VInt 7); ("__id", VStr "7")];
           [("Name", VStr "n"); ("__id", VStr "row-1")]] in
find_row_by_id st "row-1" = Some (1, [("Name", VStr "n"); ("__id", VStr "row-1")]).
Proof.
cbv zeta.
destruct (stored_id_resolves
            [[("ID", VInt 7); ("__id", VStr "7")];
             [("Name", VStr "n"); ("__id", VStr "row-1")]] 1
            [("Name", VStr "n"); ("__id", VStr "row-1")] eq_refl)
  as (j & r' & Hfind & _ & _ & Hsame).
destruct Hsame as [-> ->]; [by_evaluation | exact Hfind].
Defined.

(** X3.  A patch request that is answered with an error, whichever
    (401, 400, 403, 404 or a failure on the body), leaves the store
    exactly as it was. *)
Theorem patch_failure_keeps_store (editable : option (list string))
  (rid : string) (a : option string) (b : body) (st : store) (e : http_error) :
snd (patch_cell editable rid a b st) = Raise e ->
fst (patch_cell editable rid a b st) = st.
Proof.
destruct (decide (a = bearer)) as [->|Ha];
  [|now rewrite patch_cell_unauthorized].
destruct (body_field b) as [f|e'] eqn:Hf;
  [|now rewrite (patch_cell_bad_body _ _ _ _ _ Hf)].
rewrite (patch_cell_field _ _ _ _ _ Hf).
destruct (is_empty f); [easy|].
destruct (not_editable editable f); [easy|].
destruct (find_row_by_id st rid) as [[i r]|]; [discriminate | easy].
Qed.

Lemma patch_failure_keeps_store_witness :
let st := [[("__id", VStr "a")]] in
patch_cell (Some ["Prod"]) "a" bearer
  (BObject [("field", VStr "__id"); ("value", VStr "b")]) st =
  (st, Raise (Forbidden "__id")).
Proof.
cbv zeta. apply injective_projections; [|reflexivity].
apply (patch_failure_keeps_store (Some ["Prod"]) "a" bearer
         (BObject [("field", VStr "__id"); ("value", VStr "b")])
         [[("__id", VStr "a")]] (Forbidden "__id")).
reflexivity.
Defined.

(** X4.  A patch request that succeeds sets the named field of the
    resolved row to the given value, creating it when absent, keeps every
    other field of that row and every other row, keeps the number of
    rows, and reports the trimmed field name, the value and the probed
    identifier the row has after the change. *)
Theorem patch_success (editable : option (list string))
  (rid : string) (a : option string) (b : body) (st : store) (p : patched) :
snd (patch_cell editable rid a b st) = Ok p ->
let st' := fst (patch_cell editable rid a b st) in
exists i r r',
  find_row_by_id st rid = Some (i, r) /\
  st' !! i = Some r' /\
  body_field b = Ok (patched_field p) /\
  patched_value p = body_value b /\
  lookup_key (patched_field p) r' = Some (patched_value p) /\
  (forall k, k <> patched_field p -> lookup_key k r' = lookup_key k r) /\
  (forall j, j <> i -> st' !! j = st !! j) /\
  length st' = length st /\
  patched_id p = _row_id r'.
Proof.
cbv zeta. destruct (decide (a = bearer)) as [->|Ha];
  [|now rewrite patch_cell_unauthorized].
destruct (body_field b) as [f|e'] eqn:Hf;
  [|now rewrite (patch_cell_bad_body _ _ _ _ _ Hf)].
rewrite (patch_cell_field _ _ _ _ _ Hf).
destruct (is_empty f); [discriminate|].
destruct (not_editable editable f); [discriminate|].
destruct (find_row_by_id st rid) as [[i r]|] eqn:Hfind; [|discriminate].
cbn [fst snd]. intros [= <-]. cbn [patched_field patched_value patched_id].
pose proof (find_row_by_id_lookup _ _ _ _ Hfind) as Hi.
exists i, r, (dict_set f (body_value b) r).
split; [reflexivity|]. split.
{ apply list_lookup_insert_eq. eapply lookup_lt_Some; eauto. }
split; [reflexivity|]. split; [reflexivity|].
split; [apply lookup_key_set_same|]. split.
{ intros k Hk. apply lookup_key_set_other. congruence. }
split; [|split; [apply length_insert | reflexivity]].
intros j Hj. apply list_lookup_insert_ne. congruence.
Qed.

Lemma patch_success_witness :
let st := [[("__id", VStr "a"); ("Prod", VStr "no")]; [("__id", VStr "b")]] in
let b := BObject [("field", VStr "Owner"); ("value", VInt 3)] in
exists r',
  fst (patch_cell EDITABLE_COLUMNS "b-7" bearer b st) !! 1 = Some r' /\
  lookup_key "Owner" r' = Some (VInt 3) /\
  lookup_key "__id" r' = Some (VStr "b").
Proof.
cbv zeta.
destruct (patch_success EDITABLE_COLUMNS "b-7" bearer
            (BObject [("field", VStr "Owner"); ("value", VInt 3)])
            [[("__id", VStr "a"); ("Prod", VStr "no")]; [("__id", VStr "b")]]
            (Patched "b" "Owner" (VInt 3)) eq_refl)
  as (i & r & r' & Hfind & Hi & _ & _ & Hset & Hkeep & _).
injection Hfind as <- <-. exists r'. split; [exact Hi|].
split; [exact Hset|]. now rewrite Hkeep.
Defined.

Lemma attach_from_lookup items : forall k rows i r,
attach_from k items = Ok rows -> items !! i = Some (Obj r) ->
rows !! i = Some (dict_set "__id" (VStr (id_or_fallback (k + i) r)) r).
Proof.
induction items as [|x items IH]; intros k rows i r; [discriminate|].
simpl. destruct x as [r0|]; [|discriminate].
destruct (attach_from (S k) items) as [out|] eqn:E; [|discriminate].
intros [= <-]. destruct i as [|i]; simpl.
- intros [= ->]. now rewrite Nat.add_0_r.
- intros Hi. rewrite (IH _ _ _ _ E Hi). now rewrite Nat.add_succ_r.
Qed.

(** X5.  An accepted ingest stores, for the posted object at position
    [i], a row with the same fields except [__id], whose [__id] is the
    string the identifier probe reads back: the probed identifier of the
    posted object where it has one (first truthy of [__id], [ExternalID],
    [ID], [id], as a trimmed string), [row-<i>] where it has none. *)
Theorem attach_ids_rows (items : list item) (rows : list row) (i : nat) (r : row) :
_attach_ids items = Ok rows -> items !! i = Some (Obj r) ->
exists r2, rows !! i = Some r2 /\
  (forall k, k <> "__id" -> lookup_key k r2 = lookup_key k r) /\
  id_field r2 = Some (VStr (_row_id r2)) /\
  (_row_id r <> EmptyString -> _row_id r2 = _row_id r) /\
  (_row_id r = EmptyString -> _row_id r2 = "row-" +:+ of_nat i).
Proof.
intros Hrows Hi. eexists. split.
{ apply (attach_from_lookup _ 0 _ _ _ Hrows Hi). }
simpl. rewrite row_id_annotated. split; [|split; [|split]].
- intros k Hk. apply lookup_key_set_other. congruence.
- apply lookup_key_set_same.
- apply id_or_fallback_keeps.
- apply id_or_fallback_row.
Qed.

Lemma attach_ids_rows_witness :
let items := [Obj [("ExternalID", VStr " K-1 "); ("id", VInt 4)];
              Obj [("Name", VStr "n"); ("__id", VStr "  ")]] in
_attach_ids items =
  Ok [[("ExternalID", VStr " K-1 "); ("id", VInt 4); ("__id", VStr "K-1")];
      [("Name", VStr "n"); ("__id", VStr "row-1")]].
Proof.
cbv zeta.
destruct (_attach_ids
            [Obj [("ExternalID", VStr " K-1 "); ("id", VInt 4)];
             Obj [("Name", VStr "n"); ("__id", VStr "  ")]])
  as [rows|e] eqn:E; [|discriminate E].
destruct (attach_ids_rows _ rows 1 [("Name", VStr "n"); ("__id", VStr "  ")]
            E eq_refl) as (r2 & _ & _ & _ & _ & _).
vm_compute in E. exact (eq_sym E).
Defined.

(** X6.  Along every sequence of requests from the empty store in which
    no patch names [__id], the identifiers the listing endpoint reports
    are exactly the [__id] strings of the stored rows, row by row. *)
Theorem list_ids_are_id_fields (qs : list request) :
Forall (fun q => ~ patches_id q) qs ->
id_field <$> run qs = (fun s => Some (VStr s)) <$> list_ids (run qs).
Proof.
intros Hqs. pose proof (run_good qs Hqs) as Hgood.
unfold list_ids. rewrite <- list_fmap_compose.
apply list_fmap_ext. intros i r Hi. simpl.
rewrite Forall_fmap, Forall_lookup in Hgood.
destruct (Hgood i r Hi) as (s & Hs & Hne & Htrim). simpl in Hs.
now rewrite (row_id_of_id_field r s Hs Hne), Htrim.
Qed.

Lemma list_ids_are_id_fields_witness :
let qs := [Ingest bearer (BArray [Obj [("ID", VStr " 7 ")]; Obj []]);
           Patch "7" bearer (BObject [("field", VStr "ID"); ("value", VStr "8")])] in
list_ids (run qs) = ["7"; "row-1"] /\
id_field <$> run qs = [Some (VStr "7"); Some (VStr "row-1")].
Proof.
cbv zeta. split; [reflexivity|].
rewrite list_ids_are_id_fields; [reflexivity|].
repeat constructor; simpl; try tauto. discriminate.
Defined.

Lemma serve_unauthorized st q : header q <> bearer -> serve st q = st.
Proof.
destruct q as [a p|rid a b|a]; simpl; intros Ha.
- now rewrite receive_releases_unauthorized.
- now rewrite patch_cell_unauthorized.
- now rewrite rebuild_ids_unauthorized.
Qed.

(** X7.  Requests that do not carry the header [Bearer my_secret_key]
    are without effect wherever they come in a sequence: the store after
    the whole sequence is the store after its authorized requests alone. *)
Theorem unauthorized_requests_are_void (qs : list request) :
run qs = run (filter (fun q => header q = bearer) qs).
Proof.
unfold run. generalize (@nil row) as st.
induction qs as [|q qs IH]; intros st; [reflexivity|].
rewrite filter_cons. destruct (decide (header q = bearer)) as [Hq|Hq]; simpl.
- apply IH.
- rewrite (serve_unauthorized _ _ Hq). apply IH.
Qed.

Lemma attach_from_list_ids items : forall k rows,
attach_from k items = Ok rows -> list_ids rows = effective_ids k items.
Proof.
induction items as [|x items IH]; intros k rows; simpl.
- now intros [= <-].
- destruct x as [r|]; [|discriminate].
  destruct (attach_from (S k) items) as [out|] eqn:E; [|discriminate].
  intros [= <-]. unfold list_ids in *. rewrite fmap_cons, (IH _ _ E).
  now rewrite row_id_annotated.
Qed.

(** X19.  Ingest and lookup compose: after an accepted ingest of rows
    with pairwise distinct identifiers, requesting the identifier of the
    posted object at position [i] (its probed identifier, or [row-<i>])
    returns the row stored at position [i], through the resolver and
    through the read endpoint. *)
Theorem ingest_then_resolve (items : list item) (st : store) (i : nat) (r : row) :
Forall is_object items -> NoDup (effective_ids 0 items) ->
items !! i = Some (Obj r) ->
let st' := fst (receive_releases bearer (BArray items) st) in
exists r2,
  st' !! i = Some r2 /\
  _row_id r2 = id_or_fallback i r /\
  find_row_by_id st' (id_or_fallback i r) = Some (i, r2) /\
  get_row (id_or_fallback i r) st' = (st', Ok r2).
Proof.
intros Hobj Hnd Hi. cbv zeta. rewrite receive_releases_array.
destruct (attach_from_objects 0 items Hobj) as (rows & Hrows & _).
unfold _attach_ids. rewrite Hrows. cbn [fst].
pose proof (attach_from_lookup _ _ _ _ _ Hrows Hi) as Hr2. simpl in Hr2.
eexists. split; [exact Hr2|]. split; [apply row_id_annotated|].
destruct (find_own_id rows i _ Hr2) as (j & r' & Hfind & _ & _ & Hsame).
rewrite row_id_annotated in Hfind.
destruct Hsame as [-> ->];
  [now rewrite (attach_from_list_ids _ _ _ Hrows)|].
split; [exact Hfind|]. unfold get_row, bind, read. simpl. now rewrite Hfind.
Qed.

Lemma ingest_then_resolve_witness :
let items := [Obj [("Application", VStr "A")]; Obj [("ID", VInt 9)]] in
let st' := fst (receive_releases bearer (BArray items) [[("__id", VStr "old")]]) in
get_row "9" st' = (st', Ok [("ID", VInt 9); ("__id", VStr "9")]).
Proof.
cbv zeta.
destruct (ingest_then_resolve
            [Obj [("Application", VStr "A")]; Obj [("ID", VInt 9)]]
            [[("__id", VStr "old")]] 1 [("ID", VInt 9)])
  as (r2 & Hr2 & _ & _ & Hget).
- repeat constructor.
- by_evaluation.
- reflexivity.
- vm_compute in Hr2. injection Hr2 as <-. exact Hget.
Defined.

Lemma first_with_id_insert (st : store) i r r' q :
st !! i = Some r -> _row_id r' = _row_id r ->
first_with_id (<[i := r']> st) q =
(fun hit => (hit.1, if decide (hit.1 = i) then r' else hit.2))
  <$> first_with_id st q.
Proof.
unfold first_with_id. revert i.
induction st as [|x st IH]; intros i Hi Hid; [discriminate|].
destruct i as [|i]; simpl in *.
- injection Hi as ->. rewrite Hid.
  destruct (decide (_row_id r = q)); [reflexivity|].
  destruct (list_find _ st) as [[j y]|]; reflexivity.
- destruct (decide (_row_id x = q)); [reflexivity|].
  rewrite (IH i Hi Hid).
  destruct (list_find _ st) as [[j y]|]; simpl; [|reflexivity].
  destruct (decide (j = i)) as [->|Hne].
  + now rewrite decide_True.
  + now rewrite decide_False by lia.
Qed.

Lemma row_id_set_other f v r :
f ∉ ["__id"; "ExternalID"; "ID"; "id"] -> _row_id (dict_set f v r) = _row_id r.
Proof.
intros Hf. unfold _row_id, dict_get.
rewrite !lookup_key_set_other; [reflexivity|..];
  intros ->; apply Hf; by_evaluation.
Qed.

(** X20.  Patch and read compose: after a successful patch of a field
    that is none of the identifier fields ([__id], [ExternalID], [ID],
    [id]), the same request identifier resolves to the same position,
    and the read endpoint returns the row with the new value. *)
Theorem patch_then_get (editable : option (list string))
  (rid : string) (a : option string) (b : body) (st : store) (p : patched) :
snd (patch_cell editable rid a b st) = Ok p ->
patched_field p ∉ ["__id"; "ExternalID"; "ID"; "id"] ->
let st' := fst (patch_cell editable rid a b st) in
exists i r r',
  find_row_by_id st rid = Some (i, r) /\
  find_row_by_id st' rid = Some (i, r') /\
  get_row rid st' = (st', Ok r') /\
  lookup_key (patched_field p) r' = Some (patched_value p) /\
  list_ids st' = list_ids st.
Proof.
cbv zeta. destruct (decide (a = bearer)) as [->|Ha];
  [|now rewrite patch_cell_unauthorized].
destruct (body_field b) as [f|e'] eqn:Hf;
  [|now rewrite (patch_cell_bad_body _ _ _ _ _ Hf)].
rewrite (patch_cell_field _ _ _ _ _ Hf).
destruct (is_empty f); [discriminate|].
destruct (not_editable editable f); [discriminate|].
destruct (find_row_by_id st rid) as [[i r]|] eqn:Hfind; [|discriminate].
cbn [fst snd]. intros [= <-]. cbn [patched_field patched_value].
intros Hfield.
pose proof (find_row_by_id_lookup _ _ _ _ Hfind) as Hi.
pose proof (row_id_set_other f (body_value b) r Hfield) as Hid.
set (r' := dict_set f (body_value b) r) in *.
assert (Hfind' : find_row_by_id (<[i := r']> st) rid = Some (i, r')).
{ revert Hfind. unfold find_row_by_id.
  rewrite !(first_with_id_insert st i r r' _ Hi Hid).
  destruct (first_with_id st (normalize_id rid)) as [[j y]|]; simpl.
  - intros [= -> ->]. now rewrite decide_True.
  - destruct (strip_suffix_num (normalize_id rid)) as [base|]; [|discriminate].
    destruct (is_empty base); [discriminate|].
    rewrite (first_with_id_insert st i r r' _ Hi Hid).
    intros ->. simpl. now rewrite decide_True. }
exists i, r, r'. split; [reflexivity|]. split; [exact Hfind'|].
split; [unfold get_row, bind, read; simpl; now rewrite Hfind'|].
split; [apply lookup_key_set_same|].
unfold list_ids. rewrite list_fmap_insert, Hid.
apply list_insert_id. now rewrite list_lookup_fmap, Hi.
Qed.

Lemma patch_then_get_witness :
let st := [[("__id", VStr "a"); ("Prod", VStr "no")]; [("__id", VStr "b")]] in
let b := BObject [("field", VStr "Prod"); ("value", VStr "yes")] in
let st' := fst (patch_cell EDITABLE_COLUMNS " a-3 " bearer b st) in
get_row " a-3 " st' = (st', Ok [("__id", VStr "a"); ("Prod", VStr "yes")]).
Proof.
cbv zeta.
destruct (patch_then_get EDITABLE_COLUMNS " a-3 " bearer
            (BObject [("field", VStr "Prod"); ("value", VStr "yes")])
            [[("__id", VStr "a"); ("Prod", VStr "no")]; [("__id", VStr "b")]]
            (Patched "a" "Prod" (VStr "yes")) eq_refl ltac:(by_evaluation))
  as (i & r & r' & _ & Hfind' & Hget & _).
vm_compute in Hfind'. injection Hfind' as <- <-. exact Hget.
Defined.

End StoreOperations.

(** * Further properties of the uniqueness step *)

Section UniquenessMore.
Import PyStr Server Sync.

Lemma to_uint_not_nil n : Nat.to_uint n <> Decimal.Nil.
Proof.
rewrite <- (DecimalNat.Unsigned.of_to n) at 1.
rewrite DecimalNat.Unsigned.to_of. apply DecimalFacts.unorm_nonnil.
Qed.

Lemma of_nat_not_empty n : of_nat n <> EmptyString.
Proof.
unfold of_nat. pose proof (to_uint_not_nil n) as H.
destruct (Nat.to_uint n); [contradiction | discriminate..].
Qed.

Lemma of_nat_inj n m : of_nat n = of_nat m -> n = m.
Proof.
unfold of_nat. intros H. apply DecimalNat.Unsigned.to_uint_inj.
apply (f_equal NilEmpty.uint_of_string) in H.
rewrite !NilEmpty.usu in H. congruence.
Qed.

Lemma digits_last ds :
ds <> EmptyString -> all_chars isdigit ds = true -> last_is_space ds = false.
Proof.
induction ds as [|c r IH]; [contradiction|]. intros _. simpl.
intros [Hc Hr]%andb_prop. destruct r as [|c' r'].
- apply isdigit_not_space in Hc. now apply negb_true_iff in Hc.
- apply IH; [discriminate | exact Hr].
Qed.

Lemma strip_dash_digits b ds :
ds <> EmptyString -> all_chars isdigit ds = true ->
strip (b +:+ "-" +:+ ds) = lstrip b +:+ "-" +:+ ds.
Proof.
intros Hne Hds. unfold strip. rewrite lstrip_app_dash. apply rstrip_fixed.
change (lstrip b +:+ "-" +:+ ds) with (lstrip b +:+ String "-" ds).
rewrite last_is_space_app by discriminate.
change (String "-" ds) with ("-" +:+ ds).
rewrite last_is_space_app by exact Hne. now apply digits_last.
Qed.

Lemma lstrip_idem s : lstrip (lstrip s) = lstrip s.
Proof.
destruct (lstrip_head s) as [->|(c & r & -> & Hc)]; [reflexivity|].
simpl. now rewrite Hc.
Qed.

Lemma no_line_feed_lstrip s : no_line_feed s = true -> no_line_feed (lstrip s) = true.
Proof.
unfold no_line_feed. induction s as [|c r IH]; [reflexivity|]. simpl.
intros [Hc Hr]%andb_prop. destruct (isspace c); [exact (IH Hr)|].
simpl. now rewrite Hc, Hr.
Qed.

Lemma string_app_inv_head s a b : s +:+ a = s +:+ b -> a = b.
Proof.
induction s as [|c r IH]; [easy|].
change (String c (r +:+ a) = String c (r +:+ b) -> a = b).
intros [= H]. exact (IH H).
Qed.

Lemma length_suffixed x n : String.length x < String.length (x +:+ "-" +:+ of_nat n).
Proof. rewrite !length_app_string. simpl. lia. Qed.

(** X8.  What the uniqueness step appends, the server's suffix stripping
    takes off again: for a row of a group of several rows with one
    identifier (free of line feeds), stripping the numeric suffix of the
    de-duplicated identifier gives the trimmed original identifier. *)
Theorem suffix_round_trip (ids : list string) (i : nat) (x : string) :
ids !! i = Some x -> 1 < occurrences x ids -> no_line_feed x = true ->
exists s, uniquify ids !! i = Some s /\
          s = x +:+ "-" +:+ of_nat (occurrences x (firstn i ids)) /\
          strip_suffix_num s = Some (strip x).
Proof.
intros Hi Hdup Hnl. eexists. split; [|split; [reflexivity|]].
- rewrite uniquify_rows, list_lookup_imap, Hi. simpl. unfold suffixed.
  now rewrite bool_decide_eq_true_2 by exact Hdup.
- set (n := occurrences x (firstn i ids)).
  unfold strip_suffix_num, re_match_group1.
  rewrite (strip_dash_digits x (of_nat n)
             (of_nat_not_empty n) (of_nat_digits n)).
  rewrite (before_suffix_intro _ _ (of_nat_not_empty n) (of_nat_digits n)).
  rewrite (no_line_feed_lstrip _ Hnl). simpl. f_equal.
  unfold strip. now rewrite lstrip_idem.
Qed.

Lemma suffix_round_trip_witness :
let ids := [" APP-1 "; "B"; " APP-1 "] in
uniquify ids !! 2 = Some " APP-1 -1" /\
strip_suffix_num " APP-1 -1" = Some "APP-1".
Proof.
cbv zeta.
destruct (suffix_round_trip [" APP-1 "; "B"; " APP-1 "] 2 " APP-1 "
            eq_refl ltac:(by_evaluation) eq_refl)
  as (s & Hs & -> & Hstrip).
split; [exact Hs | exact Hstrip].
Defined.

Lemma occurrences_take_lt ids i j x :
ids !! i = Some x -> i < j ->
occurrences x (firstn i ids) < occurrences x (firstn j ids).
Proof.
intros Hi Hlt.
replace j with (i + (j - i)) by lia.
rewrite <- take_take_drop, occurrences_app.
rewrite (drop_S _ _ _ Hi). destruct (j - i) as [|k] eqn:E; [lia|].
simpl. rewrite occurrences_cons, decide_True by reflexivity. lia.
Qed.

Lemma occurrences_two ids i j x :
ids !! i = Some x -> ids !! j = Some x -> i < j -> 1 < occurrences x ids.
Proof.
intros Hi Hj Hlt. rewrite <- (take_drop j ids), occurrences_app.
pose proof (occurrences_take_lt ids i j x Hi Hlt).
rewrite (drop_S _ _ _ Hj), occurrences_cons, decide_True by reflexivity. lia.
Qed.

Lemma occurrences_once ids i x :
ids !! i = Some x -> ~ 1 < occurrences x ids -> occurrences x ids = 1.
Proof.
intros Hi Hn. assert (0 < occurrences x ids); [|lia].
apply occurrences_in. eapply list_elem_of_lookup_2; eauto.
Qed.

(** X9.  The uniqueness step keeps the number of rows; it leaves a batch
    of pairwise distinct identifiers as it is, and only such a batch; in
    any batch it leaves alone every identifier that occurs once and turns
    every other into itself, a hyphen and a decimal rank. *)
Theorem uniquify_stable (ids : list string) :
length (uniquify ids) = length ids /\
(NoDup ids <-> uniquify ids = ids) /\
(forall i x, ids !! i = Some x ->
   (occurrences x ids = 1 -> uniquify ids !! i = Some x) /\
   (1 < occurrences x ids ->
      exists s, uniquify ids !! i = Some s /\ numeric_suffix s x)).
Proof.
rewrite uniquify_rows. split; [apply length_imap|]. split; [split|].
- intros Hnd. transitivity (imap (fun _ : nat => @id string) ids).
  + apply imap_ext. intros k x _. unfold suffixed.
    rewrite bool_decide_eq_false_2; [reflexivity|].
    pose proof (occurrences_NoDup x ids Hnd). lia.
  + rewrite (imap_const id). apply list_fmap_id.
- intros Heq. apply NoDup_alt. intros i j x Hi Hj.
  destruct (decide (i = j)) as [|Hne]; [assumption|]. exfalso.
  assert (Hdup : 1 < occurrences x ids).
  { destruct (decide (i < j)).
    - apply (occurrences_two ids i j x Hi Hj); lia.
    - apply (occurrences_two ids j i x Hj Hi); lia. }
  apply (f_equal (fun l => l !! i)) in Heq.
  rewrite list_lookup_imap, Hi in Heq. simpl in Heq. unfold suffixed in Heq.
  rewrite bool_decide_eq_true_2 in Heq by exact Hdup.
  injection Heq as Heq. apply (f_equal String.length) in Heq.
  pose proof (length_suffixed x (occurrences x (firstn i ids))). lia.
- intros i x Hi. rewrite list_lookup_imap, Hi. simpl. unfold suffixed. split.
  + intros H1. rewrite bool_decide_eq_false_2 by lia. reflexivity.
  + intros Hdup. rewrite bool_decide_eq_true_2 by exact Hdup.
    eexists. split; [reflexivity|]. eexists. split; [reflexivity|].
    split; [apply of_nat_not_empty | apply of_nat_digits].
Qed.

Lemma uniquify_stable_witness :
let ids := ["a"; "b"; "a"] in
uniquify ["B-1"; "B-2"] = ["B-1"; "B-2"] /\
uniquify ids !! 1 = Some "b" /\
exists s, uniquify ids !! 2 = Some s /\ numeric_suffix s "a".
Proof.
cbv zeta. split; [|split].
- apply (uniquify_stable ["B-1"; "B-2"]). by_evaluation.
- apply (uniquify_stable ["a"; "b"; "a"]) with (i := 1); reflexivity.
- apply (uniquify_stable ["a"; "b"; "a"]) with (i := 2);
    [reflexivity | by_evaluation].
Defined.

(** X10.  The uniqueness step does make the identifiers pairwise
    distinct on every batch in which no identifier that occurs once is
    an identifier that occurs several times followed by a hyphen and
    digits. *)
Theorem uniquify_distinct (ids : list string) :
(forall z x, z ∈ ids -> occurrences z ids = 1 -> 1 < occurrences x ids ->
   ~ numeric_suffix z x) ->
NoDup (uniquify ids).
Proof.
intros Hfree. rewrite uniquify_rows. apply NoDup_alt. intros i j s Hi Hj.
apply list_lookup_imap_Some in Hi as (x & Hx & Hsx).
apply list_lookup_imap_Some in Hj as (y & Hy & Hsy).
destruct (decide (i = j)) as [|Hne]; [assumption|]. exfalso.
unfold suffixed in Hsx, Hsy.
destruct (decide (1 < occurrences x ids)) as [Dx|Dx];
  destruct (decide (1 < occurrences y ids)) as [Dy|Dy];
  rewrite ?(bool_decide_eq_true_2 _ Dx), ?(bool_decide_eq_false_2 _ Dx) in Hsx;
  rewrite ?(bool_decide_eq_true_2 _ Dy), ?(bool_decide_eq_false_2 _ Dy) in Hsy.
- assert (x = y) as <-.
  { pose proof (before_suffix_intro x _ (of_nat_not_empty
      (occurrences x (firstn i ids))) (of_nat_digits _)) as Bx.
    pose proof (before_suffix_intro y _ (of_nat_not_empty
      (occurrences y (firstn j ids))) (of_nat_digits _)) as By.
    rewrite <- Hsx in Bx. rewrite <- Hsy in By. congruence. }
  rewrite Hsx in Hsy. apply string_app_inv_head in Hsy.
  apply (string_app_inv_head "-") in Hsy. apply of_nat_inj in Hsy.
  destruct (decide (i < j)).
  + pose proof (occurrences_take_lt ids i j x Hx ltac:(lia)). lia.
  + pose proof (occurrences_take_lt ids j i x Hy ltac:(lia)). lia.
- rewrite Hsy in Hsx. apply (Hfree y x).
  + eapply list_elem_of_lookup_2; eauto.
  + eapply occurrences_once; eauto.
  + exact Dx.
  + eexists. split; [exact Hsx|].
    split; [apply of_nat_not_empty | apply of_nat_digits].
- rewrite Hsx in Hsy. apply (Hfree x y).
  + eapply list_elem_of_lookup_2; eauto.
  + eapply occurrences_once; eauto.
  + exact Dy.
  + eexists. split; [exact Hsy|].
    split; [apply of_nat_not_empty | apply of_nat_digits].
- rewrite Hsx in Hsy. subst y. apply Dx.
  destruct (decide (i < j)).
  + apply (occurrences_two ids i j x Hx Hy); lia.
  + apply (occurrences_two ids j i x Hy Hx); lia.
Qed.

Lemma uniquify_distinct_witness :
uniquify ["a"; "a"; "b"; "a-x"] = ["a-0"; "a-1"; "b"; "a-x"] /\
NoDup (uniquify ["a"; "a"; "b"; "a-x"]).
Proof.
split; [reflexivity|]. apply uniquify_distinct.
intros z x Hz Hz1 Hx (ds & Hq & Hne & Hds).
assert (x = "a") as ->.
{ unfold occurrences in Hx. rewrite !filter_cons, filter_nil in Hx.
  destruct (decide ("a" = x)); [congruence|].
  destruct (decide ("b" = x)), (decide ("a-x" = x)); simpl in Hx;
    try lia; congruence. }
apply elem_of_cons in Hz as [->|Hz]; [discriminate Hz1|].
apply elem_of_cons in Hz as [->|Hz]; [discriminate Hz1|].
apply elem_of_cons in Hz as [->|Hz]; [cbv in Hq; discriminate Hq|].
apply elem_of_cons in Hz as [->|Hz]; [|now apply elem_of_nil in Hz].
cbv in Hq. injection Hq as <-. discriminate Hds.
Defined.

End UniquenessMore.

(** * Further properties of the table preparation *)

Section TablePreparation.
Import PyStr Sync.

Lemma find_candidate_Some l2o names c :
find_candidate l2o names = Some c -> exists n, n ∈ names /\ l2o n = Some c.
Proof.
induction names as [|n names IH]; [discriminate|]. simpl.
destruct (l2o n) as [c'|] eqn:E.
- intros [= ->]. exists n. split; [now left | exact E].
- intros H. destruct (IH H) as (m & Hm & Hc). exists m. split; [now right | exact Hc].
Qed.

Lemma elem_of_columns_set name data df : name ∈ columns (set_column name data df).
Proof.
destruct (decide (name ∈ columns df)) as [Hin|Hout].
- now rewrite columns_set_in.
- rewrite columns_set_fresh by exact Hout. apply elem_of_app. right. now left.
Qed.

Lemma columns_set_cases name data df :
((name ∈ columns df) /\ columns (set_column name data df) = columns df) \/
((name ∉ columns df) /\
 columns (set_column name data df) = (columns df ++ [name])%list).
Proof.
destruct (decide (name ∈ columns df)) as [Hin|Hout].
- left. split; [exact Hin | now apply columns_set_in].
- right. split; [exact Hout | now apply columns_set_fresh].
Qed.

(** X11.  Step (B) always leaves an [__id] column, never touches the
    cells of another column, and never renames, removes or moves a
    column: the column list is the one it found, with [__id] appended
    last when it was not there.  The identifier-like column is the one
    whose trimmed, lower-cased name is [__id], else [externalid], else
    [id], else [jira key], else [key], whatever the order of the columns.
    When such a column other than [__id] is found, [__id] is that column
    as [astype(str)] writes it, cell by cell (the date alone for a column
    of midnights, [NaT] or [nan] for a missing cell), and no composite
    identifier is computed. *)
Theorem assign_id_frame (df : frame) :
(let l2o := lower_to_orig (columns df) in
 find_candidate l2o candidate_names =
 match l2o "__id", l2o "externalid", l2o "id", l2o "jira key", l2o "key" with
 | Some c, _, _, _, _
 | None, Some c, _, _, _
 | None, None, Some c, _, _
 | None, None, None, Some c, _
 | None, None, None, None, Some c => Some c
 | None, None, None, None, None => None
 end) /\
("__id" ∈ columns (assign_id df)) /\
(forall other, other <> "__id" ->
   column (assign_id df) other = column df other) /\
((("__id" ∈ columns df) /\ columns (assign_id df) = columns df) \/
 (("__id" ∉ columns df) /\
  columns (assign_id df) = (columns df ++ ["__id"])%list)) /\
(forall c,
   find_candidate (lower_to_orig (columns df)) candidate_names = Some c ->
   c <> "__id" ->
   (c ∈ columns df) /\
   column (assign_id df) "__id" = Text <$> (cell_str <$> column df c)).
Proof.
split.
{ cbv zeta. unfold candidate_names. simpl.
  destruct (lower_to_orig (columns df) "__id"); [reflexivity|].
  destruct (lower_to_orig (columns df) "externalid"); [reflexivity|].
  destruct (lower_to_orig (columns df) "id"); [reflexivity|].
  destruct (lower_to_orig (columns df) "jira key"); [reflexivity|].
  now destruct (lower_to_orig (columns df) "key"). }
unfold assign_id.
destruct (find_candidate (lower_to_orig (columns df)) candidate_names)
  as [c|] eqn:Hc.
- destruct (find_candidate_Some _ _ _ Hc) as (n & Hn & Hl).
  destruct (lower_to_orig_Some _ _ _ Hl) as [Hin Hkey].
  assert (Hnamed : named (Some c) = Some c).
  { destruct c; [|reflexivity]. subst n.
    unfold candidate_names in Hn. repeat (apply elem_of_cons in Hn as [Hn|Hn];
      [discriminate Hn|]). now apply elem_of_nil in Hn. }
  rewrite Hnamed. destruct (decide (c = "__id")) as [->|Hne].
  + split; [exact Hin|]. split; [reflexivity|]. split; [now left|].
    intros c' [= <-] Hc'. contradiction.
  + split; [apply elem_of_columns_set|]. split.
    { intros other Ho. now apply column_set_other. }
    split; [apply columns_set_cases|].
    intros c' [= <-] _. split; [exact Hin | apply column_set_same].
- simpl. destruct (bool_decide ("__id" ∈ columns df)) eqn:E.
  + apply bool_decide_eq_true in E.
    split; [exact E|]. split; [reflexivity|]. split; [now left | discriminate].
  + split; [apply elem_of_columns_set|]. split.
    { intros other Ho. now apply column_set_other. }
    split; [apply columns_set_cases | discriminate].
Qed.

Lemma assign_id_frame_witness :
let day := Scalar "2024-01-01" "2024-01-01 00:00:00" in
let df := [("Jira Key", [Text "K-1"; Scalar "42" "42"; NaN]);
           ("Application", [Text "A"; Text "B"; Text "C"])] in
let dated := [("Application", [Text "A"; Text "B"]);
              ("ID", [day; Missing "NaT"])] in
let both := [("Key", [Text "K"]); (" Id ", [Scalar "7" "7"]);
             ("Jira Key", [Text "J"])] in
find_candidate (lower_to_orig (columns df)) candidate_names = Some "Jira Key" /\
columns (assign_id df) = ["Jira Key"; "Application"; "__id"] /\
column (assign_id df) "__id" = [Text "K-1"; Text "42"; Text "nan"] /\
column (assign_id dated) "__id" = [Text "2024-01-01"; Text "NaT"] /\
find_candidate (lower_to_orig (columns both)) candidate_names = Some " Id " /\
column (assign_id both) "__id" = [Text "7"].
Proof.
cbv zeta. split; [reflexivity|]. split; [reflexivity|].
destruct (assign_id_frame
            [("Jira Key", [Text "K-1"; Scalar "42" "42"; NaN]);
             ("Application", [Text "A"; Text "B"; Text "C"])])
  as (_ & _ & _ & _ & H).
destruct (H "Jira Key" eq_refl ltac:(discriminate)) as [_ ->].
destruct (assign_id_frame
            [("Application", [Text "A"; Text "B"]);
             ("ID", [Scalar "2024-01-01" "2024-01-01 00:00:00";
                     Missing "NaT"])])
  as (_ & _ & _ & _ & H').
destruct (H' "ID" eq_refl ltac:(discriminate)) as [_ ->].
destruct (assign_id_frame
            [("Key", [Text "K"]); (" Id ", [Scalar "7" "7"]);
             ("Jira Key", [Text "J"])])
  as (Hfind & _ & _ & _ & H'').
cbv zeta in Hfind.
destruct (H'' " Id " Hfind ltac:(discriminate)) as [_ ->].
split; [reflexivity|]. split; [reflexivity|]. split; [exact Hfind|].
reflexivity.
Defined.

Lemma lower_to_orig_app l1 l2 k :
lower_to_orig (l1 ++ l2) k =
match lower_to_orig l2 k with
| Some c => Some c
| None => lower_to_orig l1 k
end.
Proof.
induction l1 as [|c l1 IH]; simpl.
- now destruct (lower_to_orig l2 k).
- rewrite IH. destruct (lower_to_orig l2 k); [reflexivity|].
  now destruct (lower_to_orig l1 k).
Qed.

Lemma lower_to_orig_insert cols p name k :
lower_to_orig (firstn p cols ++ name :: skipn p cols) k =
match lower_to_orig (skipn p cols) k with
| Some c => Some c
| None => if decide (lower_key name = k) then Some name
          else lower_to_orig (firstn p cols) k
end.
Proof.
rewrite lower_to_orig_app. simpl.
destruct (lower_to_orig (skipn p cols) k); [reflexivity|].
now destruct (decide (lower_key name = k)).
Qed.

Lemma lower_to_orig_take_drop cols p k :
lower_to_orig cols k =
match lower_to_orig (skipn p cols) k with
| Some c => Some c
| None => lower_to_orig (firstn p cols) k
end.
Proof. rewrite <- (take_drop p cols) at 1. apply lower_to_orig_app. Qed.

Lemma fill_from_idem cat scope :
fill_from (fill_from cat scope) scope = fill_from cat scope.
Proof.
unfold fill_from. revert scope.
induction cat as [|c cat IH]; intros [|s scope]; simpl; try reflexivity.
rewrite IH. f_equal.
destruct (populated c) eqn:E; [now rewrite E|]. now destruct (populated s).
Qed.

Lemma fill_from_diag d : fill_from d d = d.
Proof.
unfold fill_from. induction d as [|c d IH]; simpl; [reflexivity|].
rewrite IH. now destruct (populated c).
Qed.

Lemma set_column_twice name d1 d2 df :
set_column name d2 (set_column name d1 df) = set_column name d2 df.
Proof.
induction df as [|[n old] df IH]; simpl.
- now rewrite decide_True.
- destruct (decide (n = name)) as [->|Hn]; simpl.
  + now rewrite decide_True.
  + rewrite decide_False by exact Hn. now rewrite IH.
Qed.

Lemma set_column_same name df :
name ∈ columns df -> set_column name (column df name) df = df.
Proof.
induction df as [|[n old] df IH]; [now intros ?%elem_of_nil|].
rewrite columns_cons. simpl.
destruct (decide (n = name)) as [->|Hn]; [reflexivity|].
intros [?|Hin]%elem_of_cons; [congruence|]. now rewrite IH.
Qed.

Lemma reconcile_both df cat sc :
lower_to_orig (columns df) "category" = Some cat ->
lower_to_orig (columns df) "scope" = Some sc ->
reconcile df = set_column cat (fill_from (column df cat) (column df sc)) df.
Proof.
intros Hcat Hsc. unfold reconcile. rewrite Hcat, Hsc.
now rewrite (named_key _ "category" _ ltac:(discriminate) Hcat),
  (named_key _ "scope" _ ltac:(discriminate) Hsc).
Qed.

Lemma reconcile_scope_only df sc :
lower_to_orig (columns df) "category" = None ->
lower_to_orig (columns df) "scope" = Some sc ->
exists p, columns df !! p = Some sc /\
  reconcile df = insert_column (p + 1) "Category" (column df sc) df.
Proof.
intros Hcat Hsc. unfold reconcile. rewrite Hcat, Hsc.
rewrite (named_key _ "scope" _ ltac:(discriminate) Hsc). simpl.
destruct (lower_to_orig_Some _ _ _ Hsc) as [Hin _].
destruct (index_of_lookup _ _ Hin) as (p & -> & Hp). now exists p.
Qed.

Lemma reconcile_no_scope df :
lower_to_orig (columns df) "scope" = None -> reconcile df = df.
Proof.
intros Hsc. unfold reconcile. rewrite Hsc. simpl.
now destruct (named (lower_to_orig (columns df) "category")).
Qed.

(** X12.  Column reconciliation is idempotent: reconciling a reconciled
    frame changes nothing, whichever of its three cases applied. *)
Theorem reconcile_idempotent (df : frame) :
reconcile (reconcile df) = reconcile df.
Proof.
destruct (lower_to_orig (columns df) "scope") as [sc|] eqn:Hsc;
  [|now rewrite !(reconcile_no_scope df Hsc)].
destruct (lower_to_orig_Some _ _ _ Hsc) as [Hsc_in Hsc_key].
destruct (lower_to_orig (columns df) "category") as [cat|] eqn:Hcat.
- destruct (lower_to_orig_Some _ _ _ Hcat) as [Hcat_in Hcat_key].
  assert (Hne : sc <> cat)
    by (intros ->; rewrite Hcat_key in Hsc_key; discriminate).
  rewrite (reconcile_both df cat sc Hcat Hsc).
  rewrite (reconcile_both _ cat sc)
    by (rewrite (columns_set_in _ _ _ Hcat_in); assumption).
  rewrite column_set_same, (column_set_other _ _ _ _ Hne), fill_from_idem.
  apply set_column_twice.
- destruct (reconcile_scope_only df sc Hcat Hsc) as (p & Hp & ->).
  assert (Hfresh : "Category" ∉ columns df).
  { intros HC. apply (proj1 (lower_to_orig_None _ _) Hcat _ HC). reflexivity. }
  assert (Hne : sc <> "Category") by (intros ->; discriminate Hsc_key).
  rewrite (lower_to_orig_take_drop _ (p + 1)) in Hsc, Hcat.
  rewrite (reconcile_both _ "Category" sc).
  + rewrite (column_insert_fresh _ _ _ _ Hfresh),
      (column_insert_other _ _ _ _ _ Hne), fill_from_diag.
    rewrite <- (column_insert_fresh (p + 1) "Category" (column df sc) df Hfresh)
      at 1.
    apply set_column_same. rewrite columns_insert.
    apply elem_of_app. right. now left.
  + rewrite columns_insert, lower_to_orig_insert.
    destruct (lower_to_orig (skipn (p + 1) (columns df)) "category");
      [discriminate Hcat|]. now rewrite decide_True.
  + rewrite columns_insert, lower_to_orig_insert.
    destruct (lower_to_orig (skipn (p + 1) (columns df)) "scope");
      [exact Hsc|]. now rewrite decide_False by discriminate.
Qed.

End TablePreparation.

(** * Properties of the HTML view *)

Section HtmlView.
Import PyStr Server Views.

Lemma front_filter_perm (x : string) (l : list string) :
NoDup l -> x ∈ l -> x :: filter (fun c => c <> x) l ≡ₚ l.
Proof.
induction 1 as [|y l Hy Hnd IH]; [now intros ?%elem_of_nil|].
rewrite filter_cons. destruct (decide (y <> x)) as [Hne|Heq].
- intros [?|Hin]%elem_of_cons; [congruence|].
  rewrite Permutation_swap. now rewrite (IH Hin).
- assert (y = x) as -> by (destruct (decide (y = x)); tauto).
  intros _. f_equiv. clear IH. induction l as [|z l IH]; [reflexivity|].
  apply not_elem_of_cons in Hy as [Hz Hl]. apply NoDup_cons in Hnd as [_ Hnd].
  rewrite filter_cons, decide_True by congruence. now rewrite (IH Hl Hnd).
Qed.

Lemma lookup_key_keys k r v : lookup_key k r = Some v -> k ∈ keys r.
Proof.
unfold keys. induction r as [|[k' v'] r IH]; [discriminate|]. simpl.
destruct (decide (k' = k)) as [->|Hne]; [now left|].
intros H. right. exact (IH H).
Qed.

Lemma filter_absent (x : string) (l : list string) :
x ∉ l -> filter (fun c => c <> x) l = l.
Proof.
induction l as [|y l IH]; [reflexivity|].
intros [Hy Hl]%not_elem_of_cons. rewrite filter_cons, decide_True by congruence.
now rewrite (IH Hl).
Qed.

Lemma front_filter_split (x : string) (before after : list string) :
x ∉ before -> x ∉ after ->
filter (fun c => c <> x) (before ++ x :: after)%list = (before ++ after)%list.
Proof.
intros Hb Ha. rewrite filter_app, filter_cons, decide_False by tauto.
now rewrite !filter_absent.
Qed.

(** X13.  The HTML view has no table exactly on the empty store.
    Otherwise its header is the key list of the first stored row, with
    [__id] moved to the front when it is a key and nothing else moved,
    added or dropped: the keys before [__id] and the keys after it
    follow it in their order.  The table has one line per stored row,
    and every line has one cell per header column, also for rows with
    other keys: the cell under a column is the text of the row's value
    under that key, empty when the row has no such key or holds [None]. *)
Theorem html_table_shape (st : list row) :
(get_releases_html st = None <-> st = []) /\
(forall first rest, st = first :: rest ->
   exists header cells,
     get_releases_html st = Some (header, cells) /\
     length cells = length st /\
     Forall (fun line => length line = length header) cells /\
     (("__id" ∈ keys first) -> head header = Some "__id") /\
     (("__id" ∉ keys first) -> header = keys first) /\
     (NoDup (keys first) -> header ≡ₚ keys first) /\
     (("__id" ∈ keys first) ->
        header = "__id" :: filter (fun c => c <> "__id") (keys first)) /\
     (forall before after,
        keys first = (before ++ "__id" :: after)%list ->
        "__id" ∉ before -> "__id" ∉ after ->
        header = "__id" :: (before ++ after)%list) /\
     (forall i r, st !! i = Some r ->
        exists line,
          cells !! i = Some line /\
          forall j c, header !! j = Some c ->
            line !! j = Some (match lookup_key c r with
                              | None | Some VNone => EmptyString
                              | Some v => py_str v
                              end))).
Proof.
split.
- destruct st; simpl; split; congruence.
- intros first rest ->. exists (html_columns first). eexists.
  split; [reflexivity|]. split; [apply length_fmap|].
  split; [apply Forall_fmap, Forall_forall; intros r _; simpl;
          apply length_fmap|].
  assert (Hfront : "__id" ∈ keys first ->
            html_columns first
            = "__id" :: filter (fun c => c <> "__id") (keys first)).
  { intros Hin. unfold html_columns. now rewrite bool_decide_eq_true_2. }
  split; [intros Hin; now rewrite (Hfront Hin)|].
  split; [intros Hout; unfold html_columns;
          now rewrite bool_decide_eq_false_2|].
  split.
  { intros Hnd. unfold html_columns.
    destruct (bool_decide ("__id" ∈ keys first)) eqn:E; [|reflexivity].
    apply bool_decide_eq_true in E. now apply front_filter_perm. }
  split; [exact Hfront|]. split.
  { intros before after Hk Hb Ha. rewrite Hfront.
    - rewrite Hk. now rewrite front_filter_split.
    - rewrite Hk. apply elem_of_app. right. now left. }
  intros i r Hi. exists (html_cell r <$> html_columns first). split.
  + rewrite list_lookup_fmap, Hi. reflexivity.
  + intros j c Hj. rewrite list_lookup_fmap, Hj. reflexivity.
Qed.

Lemma html_table_shape_witness :
let first :=
  [("Zone", VStr "z"); ("Application", VStr "A"); ("__id", VStr "k");
   ("Prod", VNone); ("Build", VInt 7)] in
let st := [first; [("__id", VInt 4); ("Extra", VBool true)]] in
get_releases_html st =
  Some (["__id"; "Zone"; "Application"; "Prod"; "Build"],
        [["k"; "z"; "A"; EmptyString; "7"];
         ["4"; EmptyString; EmptyString; EmptyString; EmptyString]]) /\
exists header cells,
  get_releases_html st = Some (header, cells) /\
  header = ["__id"; "Zone"; "Application"; "Prod"; "Build"] /\
  head header = Some "__id" /\
  header ≡ₚ keys first /\
  length cells = 2.
Proof.
cbv zeta. split; [reflexivity|].
destruct (html_table_shape
            [[("Zone", VStr "z"); ("Application", VStr "A");
              ("__id", VStr "k"); ("Prod", VNone); ("Build", VInt 7)];
             [("__id", VInt 4); ("Extra", VBool true)]]) as [_ H].
destruct (H _ _ eq_refl)
  as (header & cells & Hget & Hlen & _ & Hhead & _ & Hperm & _ & Hsplit & _).
exists header, cells. split; [exact Hget|]. split; [|split; [|split]].
- apply (Hsplit ["Zone"; "Application"] ["Prod"; "Build"]);
    [reflexivity| |]; by_evaluation.
- apply Hhead. by_evaluation.
- apply Hperm. by_evaluation.
- exact Hlen.
Defined.

(** X14.  On every non-empty store reached from the empty one by
    requests none of whose patches names [__id], the first column of the
    HTML table is [__id], and the first cell of each line is the
    identifier the listing endpoint reports for that row. *)
Theorem html_id_column (qs : list request) :
Forall (fun q => ~ patches_id q) qs ->
run qs <> [] ->
exists cols cells,
  get_releases_html (run qs) = Some (cols, cells) /\
  head cols = Some "__id" /\
  head <$> cells = Some <$> list_ids (run qs).
Proof.
intros Hqs Hne. pose proof (run_good qs Hqs) as Hgood.
destruct (run qs) as [|first rest] eqn:E; [contradiction|].
assert (Hfirst : "__id" ∈ keys first).
{ apply Forall_inv in Hgood as (s & Hs & _). eapply lookup_key_keys, Hs. }
exists (html_columns first). eexists. split; [reflexivity|].
assert (Hcols : html_columns first
                = "__id" :: filter (fun c => c <> "__id") (keys first)).
{ unfold html_columns. now rewrite bool_decide_eq_true_2. }
split; [now rewrite Hcols|].
unfold list_ids. rewrite <- !list_fmap_compose.
apply list_fmap_ext. intros i r Hi. simpl. rewrite Hcols. simpl.
rewrite Forall_fmap, Forall_lookup in Hgood.
destruct (Hgood i r Hi) as (s & Hs & Hnes & Htrim). unfold id_field in Hs.
unfold html_cell. rewrite Hs. simpl.
now rewrite (row_id_of_id_field r s Hs Hnes), Htrim.
Qed.

Lemma html_id_column_witness :
let qs := [Ingest bearer (BArray [Obj [("Application", VStr "A")];
                                   Obj [("ID", VInt 9); ("Application", VNone)]])] in
get_releases_html (run qs) =
  Some (["__id"; "Application"], [["row-0"; "A"]; ["9"; EmptyString]]).
Proof.
cbv zeta.
destruct (html_id_column
            [Ingest bearer (BArray [Obj [("Application", VStr "A")];
                                    Obj [("ID", VInt 9); ("Application", VNone)]])])
  as (cols & cells & H & _).
- repeat constructor. simpl. tauto.
- discriminate.
- vm_compute in H. vm_compute. reflexivity.
Defined.

End HtmlView.

(** * Properties of the ticket search *)

Section TicketSearch.
Import PyStr Jira.

(** X15.  The project the search runs on is always one of the accessible
    projects: resolving fails exactly when there is none, returns the
    preferred project exactly when one is configured and accessible, and
    the first accessible project otherwise. *)
Theorem resolve_project_key_accessible (preferred : option string)
  (keys : list string) :
(resolve_project_key preferred keys = None <-> keys = []) /\
(forall k, resolve_project_key preferred keys = Some k ->
   (k ∈ keys) /\
   (Sync.named preferred = Some k \/ head keys = Some k) /\
   (forall p, Sync.named preferred = Some p -> p ∈ keys -> k = p)).
Proof.
unfold resolve_project_key. destruct keys as [|first rest].
- split; [easy | discriminate].
- split; [split; [|discriminate]|].
  + destruct (Sync.named preferred);
      [destruct (bool_decide _)|]; discriminate.
  + intros k. destruct (Sync.named preferred) as [p|].
    * destruct (bool_decide (p ∈ first :: rest)) eqn:E; intros [= <-].
      -- apply bool_decide_eq_true in E.
         split; [exact E|]. split; [now left|]. now intros ? [= ->].
      -- apply bool_decide_eq_false in E.
         split; [now left|]. split; [now right|].
         intros ? [= <-] Hin. contradiction.
    * intros [= <-]. split; [now left|]. split; [now right | discriminate].
Qed.

Lemma resolve_project_key_accessible_witness :
resolve_project_key (Some "OPS") ["REL"; "OPS"] = Some "OPS" /\
resolve_project_key (Some "GONE") ["REL"; "OPS"] = Some "REL" /\
resolve_project_key PREFERRED_PROJECT ["REL"; "OPS"] = Some "REL".
Proof.
split; [|split; reflexivity].
destruct (resolve_project_key_accessible (Some "OPS") ["REL"; "OPS"])
  as [_ H].
destruct (H "OPS" eq_refl) as (_ & _ & _). reflexivity.
Defined.

(** X16.  A search sends one, two or three requests.  The first is the
    GET search with the caller's query, or the default query of the
    project when the caller gave none; a POST search is sent at most
    once and only as the last request; an answer 200 to the first GET
    ends the search there with the issues of that answer; and when no
    request is answered 200 the result is the empty list. *)
Theorem fetch_requests (jql : option string) (max_results days : Z)
  (project_key : string) (r r2 r3 : response) :
let query := default (build_bounded_jql project_key days) (Sync.named jql) in
let out := fetch_jira_issues jql max_results days project_key r r2 r3 in
head (fst out) = Some (GET query max_results) /\
1 <= length (fst out) <= 3 /\
(forall i q m, fst out !! i = Some (POST q m) -> S i = length (fst out)) /\
(status_code r = 200%Z ->
   out = ([GET query max_results], _extract_and_print_issues (body r))) /\
(status_code r <> 200%Z -> 2 <= length (fst out)) /\
(status_code r <> 200%Z -> status_code r2 <> 200%Z ->
 status_code r3 <> 200%Z -> snd out = Some []).
Proof.
cbv zeta. unfold fetch_jira_issues.
destruct (decide (status_code r = 200%Z)) as [H1|H1].
- simpl. repeat split; try lia; try congruence.
  intros [|[|i]] q m; discriminate.
- destruct (bool_decide (status_code r = 400%Z) && unbound r);
    cbn [andb].
  + destruct (bool_decide (status_code r2 = 200%Z)) eqn:H2.
    * apply bool_decide_eq_true in H2. simpl.
      repeat split; try lia; try congruence.
      intros [|[|[|i]]] q m; discriminate.
    * simpl. destruct (decide (status_code r3 = 200%Z)); simpl;
        (repeat split; try lia; try congruence;
         intros [|[|[|i]]] q m; try discriminate; reflexivity).
  + simpl. destruct (decide (status_code r3 = 200%Z)); simpl;
      (repeat split; try lia; try congruence;
       intros [|[|i]] q m; try discriminate; reflexivity).
Qed.

Lemma fetch_requests_witness :
let ok := Response 200 "ok" (JObj [("issues", JArr [JObj [("key", JStr "REL-1")]])]) in
let down := Response 503 "down" JNull in
fetch_jira_issues None 25 30 "REL" ok down down =
  ([GET (build_bounded_jql "REL" 30) 25], Some [JObj [("key", JStr "REL-1")]]) /\
snd (fetch_jira_issues None 25 30 "REL" down down down) = Some [].
Proof.
cbv zeta. split.
- apply (fetch_requests None 25 30 "REL"). reflexivity.
- apply (fetch_requests None 25 30 "REL"); discriminate.
Defined.

(** X17.  The narrowed search is sent exactly when the first GET is
    answered 400 with a text that names an unbound query.  It asks for
    the default query of the project over at most 7 days, replacing the
    caller's query; the POST search that follows a failed narrowed search
    repeats the narrowed query, while without narrowing the POST repeats
    the first query.  For a default search over 7 days or fewer the
    narrowed query is the first query again. *)
Theorem fetch_narrowing (jql : option string) (max_results days : Z)
  (project_key : string) (r r2 r3 : response) :
let query := default (build_bounded_jql project_key days) (Sync.named jql) in
let narrowed := build_bounded_jql project_key (Z.min 7 days) in
let out := fetch_jira_issues jql max_results days project_key r r2 r3 in
status_code r <> 200%Z ->
(status_code r = 400%Z -> unbound r = true ->
   (status_code r2 = 200%Z ->
      out = ([GET query max_results; GET narrowed max_results],
             _extract_and_print_issues (body r2))) /\
   (status_code r2 <> 200%Z ->
      fst out = [GET query max_results; GET narrowed max_results;
                 POST narrowed max_results])) /\
(~ (status_code r = 400%Z /\ unbound r = true) ->
   fst out = [GET query max_results; POST query max_results]) /\
((days <= 7)%Z -> Sync.named jql = None -> narrowed = query).
Proof.
cbv zeta. intros H1. unfold fetch_jira_issues.
rewrite decide_False by exact H1. split; [|split].
- intros H400 Hu. rewrite bool_decide_eq_true_2 by exact H400. rewrite Hu.
  cbn [andb]. split.
  + intros H2. now rewrite bool_decide_eq_true_2 by exact H2.
  + intros H2. rewrite bool_decide_eq_false_2 by exact H2. cbn [andb].
    now destruct (decide (status_code r3 = 200%Z)).
- intros Hno.
  assert (E : bool_decide (status_code r = 400%Z) && unbound r = false).
  { destruct (bool_decide (status_code r = 400%Z)) eqn:E4; [|reflexivity].
    apply bool_decide_eq_true in E4. destruct (unbound r); [|reflexivity].
    destruct Hno. now split. }
  rewrite E. cbn [andb]. now destruct (decide (status_code r3 = 200%Z)).
- intros Hd ->. simpl. now rewrite Z.min_r by exact Hd.
Qed.

Lemma fetch_narrowing_witness :
let unbound_answer := Response 400 "Unbounded JQL: Unbound query" JNull in
let down := Response 500 "oops" JNull in
fst (fetch_jira_issues (Some "project = X") 25 30 "REL" unbound_answer down down) =
  [GET "project = X" 25;
   GET (build_bounded_jql "REL" 7) 25;
   POST (build_bounded_jql "REL" 7) 25] /\
fst (fetch_jira_issues (Some "project = X") 25 30 "REL" down down down) =
  [GET "project = X" 25; POST "project = X" 25].
Proof.
cbv zeta. split.
- destruct (fetch_narrowing (Some "project = X") 25 30 "REL"
              (Response 400 "Unbounded JQL: Unbound query" JNull)
              (Response 500 "oops" JNull) (Response 500 "oops" JNull))
    as (H & _); [discriminate|].
  destruct (H eq_refl eq_refl) as [_ H2]. apply H2. discriminate.
- destruct (fetch_narrowing (Some "project = X") 25 30 "REL"
              (Response 500 "oops" JNull)
              (Response 500 "oops" JNull) (Response 500 "oops" JNull))
    as (_ & H & _); [discriminate|].
  apply H. intros [H4 _]. discriminate H4.
Defined.

Lemma printable_object it : printable it = Some tt -> exists f, it = JObj f.
Proof. destruct it; try discriminate. eauto. Qed.

Lemma printed_all (items : list json) :
Forall (fun it => printable it = Some tt) items ->
exists us, mapM printable items = Some us.
Proof.
induction 1 as [|it items Hit _ [us IH]]; [now exists []|].
exists (tt :: us). simpl. now rewrite Hit, IH.
Qed.

Lemma extract_listed (d : list (string * json)) (items : list json) :
lookup "results" d = None -> lookup "issues" d = Some (JArr items) ->
Forall (fun it => printable it = Some tt) items ->
_extract_and_print_issues (JObj d) = Some items.
Proof.
intros Hr Hi Hp. unfold _extract_and_print_issues, get. rewrite Hr, Hi. simpl.
destruct items as [|it items]; [reflexivity|].
destruct (printed_all _ Hp) as [us ->]. reflexivity.
Qed.

(** X18.  Whenever the extraction of the issues returns, it returns the
    empty list or a list of JSON objects that the printing loop went
    through.  A document whose [results] entry is a list that starts
    with an object is read through that first object alone: the outcome
    is the one of a document holding only the [issues] of that first
    object, whatever the later elements of [results] and the other
    entries of the document are; it is the empty list when the first
    object has no [issues], and the listed issues when they are a list
    the printing loop goes through.  A falsy [results] entry gives the
    empty list, any other [results] entry raises, and a document without
    [results] is read through its own [issues]: the empty list when it
    has none. *)
Theorem extract_issues (d : list (string * json)) :
(forall issues, _extract_and_print_issues (JObj d) = Some issues ->
   Forall (fun it => printable it = Some tt /\ exists f, it = JObj f) issues) /\
(forall results, lookup "results" d = Some results ->
   _extract_and_print_issues (JObj d) =
   _extract_and_print_issues (JObj [("results", results)])) /\
(lookup "results" d = None -> lookup "issues" d = None ->
   _extract_and_print_issues (JObj d) = Some []) /\
(forall first others,
   lookup "results" d = Some (JArr (JObj first :: others)) ->
   _extract_and_print_issues (JObj d) =
   _extract_and_print_issues
     (JObj [("issues", match lookup "issues" first with
                       | Some v => v
                       | None => JArr []
                       end)]) /\
   (lookup "issues" first = None ->
    _extract_and_print_issues (JObj d) = Some []) /\
   (forall items, lookup "issues" first = Some (JArr items) ->
    Forall (fun it => printable it = Some tt) items ->
    _extract_and_print_issues (JObj d) = Some items)) /\
(forall results, lookup "results" d = Some results ->
   truthy results = false ->
   _extract_and_print_issues (JObj d) = Some []) /\
(forall results, lookup "results" d = Some results ->
   truthy results = true ->
   (forall first others, results <> JArr (JObj first :: others)) ->
   _extract_and_print_issues (JObj d) = None) /\
(forall items, lookup "results" d = None ->
   lookup "issues" d = Some (JArr items) ->
   Forall (fun it => printable it = Some tt) items ->
   _extract_and_print_issues (JObj d) = Some items).
Proof.
split; [|split; [|split; [|split; [|split; [|split]]]]].
- intros issues. unfold _extract_and_print_issues.
  destruct (match lookup "results" d with
            | Some results => _ | None => _ end) as [v|];
    [|discriminate]. simpl.
  destruct (truthy v); [|intros [= <-]; constructor].
  destruct v as [| | | |items|]; try discriminate.
  destruct (mapM printable items) as [us|] eqn:E; [|discriminate].
  simpl. intros [= <-]. apply mapM_Some in E.
  apply Forall_forall. intros it Hit.
  apply list_elem_of_lookup_1 in Hit as (i & Hi).
  destruct (Forall2_lookup_l _ _ _ _ _ E Hi) as ([] & _ & Hp).
  split; [exact Hp | now apply printable_object].
- intros results Hr. unfold _extract_and_print_issues. rewrite Hr.
  reflexivity.
- intros Hr Hi. unfold _extract_and_print_issues, get. rewrite Hr, Hi.
  reflexivity.
- intros first others Hr.
  assert (Hread : _extract_and_print_issues (JObj d) =
            _extract_and_print_issues
              (JObj [("issues", match lookup "issues" first with
                                | Some v => v
                                | None => JArr []
                                end)])).
  { unfold _extract_and_print_issues at 1 2. rewrite Hr. reflexivity. }
  split; [exact Hread|]. split.
  + intros Hi. rewrite Hread, Hi. reflexivity.
  + intros items Hi Hp. rewrite Hread, Hi.
    now apply extract_listed.
- intros results Hr Hf. unfold _extract_and_print_issues. rewrite Hr, Hf.
  reflexivity.
- intros results Hr Ht Hno. unfold _extract_and_print_issues.
  rewrite Hr, Ht.
  destruct results as [| | | |[|[| | | | |first] others]|]; try reflexivity.
  now destruct (Hno first others).
- intros items. apply extract_listed.
Qed.

Lemma extract_issues_witness :
let issue := JObj [("key", JStr "REL-1"); ("fields", JObj [("status", JNull)])] in
let last := JObj [("issues", JArr [JObj [("key", JStr "REL-3")]])] in
let d := [("issues", JArr [JObj [("key", JStr "OLD-9")]]);
          ("results", JArr [JObj [("issues", JArr [issue])]; JNull; last])] in
_extract_and_print_issues (JObj d) = Some [issue] /\
_extract_and_print_issues
  (JObj [("results", JArr [JObj [("total", JNum true)]; last; last])])
  = Some [] /\
_extract_and_print_issues (JObj [("results", JArr []); ("issues", JArr [issue])])
  = Some [] /\
_extract_and_print_issues (JObj [("results", JArr [JNull; last; last])]) = None /\
_extract_and_print_issues (JObj [("results", JStr "x")]) = None /\
_extract_and_print_issues (JObj [("issues", JArr [issue; issue])])
  = Some [issue; issue] /\
_extract_and_print_issues (JObj [("total", JNum false)]) = Some [].
Proof.
cbv zeta.
split; [|split; [|split; [|split; [|split; [|split]]]]].
- destruct (extract_issues
              [("issues", JArr [JObj [("key", JStr "OLD-9")]]);
               ("results",
                JArr [JObj [("issues",
                             JArr [JObj [("key", JStr "REL-1");
                                         ("fields", JObj [("status", JNull)])]])];
                      JNull;
                      JObj [("issues", JArr [JObj [("key", JStr "REL-3")]])]])])
    as (_ & _ & _ & H & _).
  destruct (H _ _ eq_refl) as (_ & _ & Hitems).
  apply Hitems; [reflexivity|]. repeat constructor.
- destruct (extract_issues
              [("results",
                JArr [JObj [("total", JNum true)];
                      JObj [("issues", JArr [JObj [("key", JStr "REL-3")]])];
                      JObj [("issues", JArr [JObj [("key", JStr "REL-3")]])]])])
    as (_ & _ & _ & H & _).
  destruct (H _ _ eq_refl) as (_ & Hnone & _). now apply Hnone.
- destruct (extract_issues
              [("results", JArr []);
               ("issues",
                JArr [JObj [("key", JStr "REL-1");
                            ("fields", JObj [("status", JNull)])]])])
    as (_ & _ & _ & _ & H & _).
  now apply (H (JArr [])).
- destruct (extract_issues
              [("results",
                JArr [JNull;
                      JObj [("issues", JArr [JObj [("key", JStr "REL-3")]])];
                      JObj [("issues", JArr [JObj [("key", JStr "REL-3")]])]])])
    as (_ & _ & _ & _ & _ & H & _).
  apply (H _ eq_refl); [reflexivity|]. intros first others. discriminate.
- destruct (extract_issues [("results", JStr "x")])
    as (_ & _ & _ & _ & _ & H & _).
  apply (H _ eq_refl); [reflexivity|]. intros first others. discriminate.
- destruct (extract_issues
              [("issues",
                JArr [JObj [("key", JStr "REL-1");
                            ("fields", JObj [("status", JNull)])];
                      JObj [("key", JStr "REL-1");
                            ("fields", JObj [("status", JNull)])]])])
    as (_ & _ & _ & _ & _ & _ & H).
  apply H; [reflexivity|reflexivity|]. repeat constructor.
- destruct (extract_issues [("total", JNum false)]) as (_ & _ & H & _).
  now apply H.
Defined.

End TicketSearch.
